(** * Wiki inventorizer: pagination stitching, view aggregation, report rendering

    A shallow embedding of [main.py]: the paginated fetch of
    [create_most_visited_json] with its module-level globals, the view
    aggregation and ranked table of [create_most_visited_md], and the row
    emission loop of [create_new_articles_md].  Python [str] values are
    modelled by [string], Python [int] by [Z]. *)

From Stdlib Require Import ZArith List Lia Bool Ascii String.
From Stdlib Require Import Permutation Sorted DecimalString.
Import ListNotations.

Open Scope string_scope.
Open Scope Z_scope.

(** ** Python string primitives *)

Module PyStr.

Definition len (s : string) : Z := Z.of_nat (String.length s).

(** [s[n:]] and [s[:n]] for an index already normalised to [0 <= n]. *)
Fixpoint drop (n : nat) (s : string) : string :=
  match n, s with
  | O, _ => s
  | S _, EmptyString => EmptyString
  | S k, String _ t => drop k t
  end.

Fixpoint take (n : nat) (s : string) : string :=
  match n, s with
  | O, _ => EmptyString
  | S _, EmptyString => EmptyString
  | S k, String c t => String c (take k t)
  end.

(** [str.startswith]. *)
Definition startswith (s p : string) : bool := String.prefix p s.

(** Normalisation of a slice or search bound against a length, as CPython
    does it: a negative bound counts from the end, and the result is
    clipped to [0 .. n]. *)
Definition adjust (i n : Z) : Z :=
  if i <? 0 then Z.max (i + n) 0 else Z.min i n.

(** [s[start:stop]]. *)
Definition slice (s : string) (start stop : Z) : string :=
  let a := adjust start (len s) in
  let b := adjust stop (len s) in
  take (Z.to_nat (b - a)) (drop (Z.to_nat a) s).

(** [s[start:]] and [s[:stop]]. *)
Definition slice_from (s : string) (start : Z) : string :=
  drop (Z.to_nat (adjust start (len s))) s.

Definition slice_to (s : string) (stop : Z) : string :=
  take (Z.to_nat (adjust stop (len s))) s.

(** Lowest and highest offset at which [sub] occurs in [s]. *)
Fixpoint find_nat (sub s : string) : option nat :=
  if String.prefix sub s then Some O
  else match s with
       | EmptyString => None
       | String _ t => option_map S (find_nat sub t)
       end.

Fixpoint rfind_nat (sub s : string) : option nat :=
  match s with
  | EmptyString => if String.prefix sub s then Some O else None
  | String _ t =>
      match rfind_nat sub t with
      | Some n => Some (S n)
      | None => if String.prefix sub s then Some O else None
      end
  end.

Definition of_pos (o : option nat) : Z :=
  match o with
  | Some n => Z.of_nat n
  | None => -1
  end.

(** [s.find(sub)]: lowest index, or [-1]. *)
Definition find (s sub : string) : Z := of_pos (find_nat sub s).

(** [sub in s]. *)
Definition contains (s sub : string) : bool :=
  match find_nat sub s with Some _ => true | None => false end.

(** [s.rfind(sub, start, stop)]: highest index of [sub] inside
    [s[start:stop]], or [-1]. *)
Definition rfind (s sub : string) (start stop : Z) : Z :=
  let a := adjust start (len s) in
  let b := adjust stop (len s) in
  match rfind_nat sub (take (Z.to_nat (b - a)) (drop (Z.to_nat a) s)) with
  | Some n => a + Z.of_nat n
  | None => -1
  end.

(** [s.replace(old, new)]: non-overlapping occurrences, left to right.
    [skip] counts the characters of a matched occurrence still to be
    passed over. *)
Fixpoint replace_go (old new : string) (skip : nat) (s : string) : string :=
  match s with
  | EmptyString => EmptyString
  | String c t =>
      match skip with
      | S k => replace_go old new k t
      | O =>
          if String.prefix old s
          then new ++ replace_go old new (Nat.pred (String.length old)) t
          else String c (replace_go old new O t)
      end
  end.

Fixpoint intersperse (new s : string) : string :=
  match s with
  | EmptyString => EmptyString
  | String c t => String c (new ++ intersperse new t)
  end.

Definition replace (s old new : string) : string :=
  match old with
  | EmptyString => new ++ intersperse new s
  | String _ _ => replace_go old new O s
  end.

(** [str.strip()]: white space removed at both ends.  Among the code
    points below 256, [str.isspace] holds of 9 to 13, 28 to 32, 133 (next
    line) and 160 (no-break space). *)
Definition is_space (c : ascii) : bool :=
  let n := nat_of_ascii c in
  ((9 <=? n) && (n <=? 13) || (28 <=? n) && (n <=? 32) || (n =? 133) || (n =? 160))%nat.

Fixpoint lstrip (s : string) : string :=
  match s with
  | EmptyString => EmptyString
  | String c t => if is_space c then lstrip t else s
  end.

Fixpoint rstrip (s : string) : string :=
  match s with
  | EmptyString => EmptyString
  | String c t =>
      match rstrip t with
      | EmptyString => if is_space c then EmptyString else String c EmptyString
      | r => String c r
      end
  end.

Definition strip (s : string) : string := rstrip (lstrip s).

(** [s.split(sep)] for a separator that is not empty; the head of the
    result is the piece being read. *)
Fixpoint split_go (sep : string) (skip : nat) (s : string) : list string :=
  match s with
  | EmptyString => [EmptyString]
  | String c t =>
      match skip with
      | S k => split_go sep k t
      | O =>
          if String.prefix sep s
          then EmptyString :: split_go sep (Nat.pred (String.length sep)) t
          else match split_go sep O t with
               | [] => [String c EmptyString]
               | piece :: pieces => String c piece :: pieces
               end
      end
  end.

Definition split (s sep : string) : list string := split_go sep O s.

(** [str(n)] for an [int]. *)
Definition str_of_int (n : Z) : string :=
  NilEmpty.string_of_int (Z.to_int n).

(** One-character strings that cannot be written inside a literal. *)
Definition nl : string := String (ascii_of_nat 10) EmptyString.
Definition dq : string := String (ascii_of_nat 34) EmptyString.

End PyStr.

Import PyStr.

(** ** The paginated fetch: [create_most_visited_json] *)

(** [continuation_token] starts as the integer [1] and is later overwritten
    with the text of a response header. *)
Inductive Token :=
| TokInt (n : Z)
| TokStr (s : string).

(** The module-level variables of [main.py] (lines 16-20). *)
Record Globals := mkGlobals {
  continuation_token : Token;
  result_json : string;
  current_batch_result_json : string;
  batch_number : Z;
  has_more_results : bool
}.

Definition initial_globals : Globals :=
  mkGlobals (TokInt 1) EmptyString EmptyString 0 false.

(** The dictionary that [_create_api_call_definitions] serialises as the
    POST body. *)
Record PostData := mkPostData {
  pageViewsForDays : Z;
  continuationToken : Token
}.

Definition _create_api_call_definitions (g : Globals) : PostData :=
  mkPostData 30 (continuation_token g).

(** What [requests.post] hands back: the parts of the response the loop
    reads.  [x_ms_continuationtoken] is the header of that name, when
    present. *)
Record Response := mkResponse {
  status_code : Z;
  x_ms_continuationtoken : option string;
  text : string
}.

(** One call of [requests.post] either returns a response or raises an
    exception of the given class. *)
Inductive Outcome :=
| Returned (resp : Response)
| Raised (cls : string).

(** Operands of Python's [+] as the [except] handler meets them. *)
Inductive PyObj :=
| PyStrObj (s : string)
| PyExcObj (cls : string).

(** [left + right] for a [str] on the left: concatenation is defined for
    another [str] only, anything else raises [TypeError]. *)
Definition str_add (left : string) (right : PyObj) : option string :=
  match right with
  | PyStrObj s => Some (left ++ s)
  | PyExcObj _ => None
  end.

(** How one pass through the body of [while True] ends. *)
Inductive Step :=
| Continue (g : Globals)
| Break (g : Globals)
| SysExit (code : Z) (g : Globals)
| Propagate (cls : string) (g : Globals).

Definition str_to_find : string := dq ++ "value" ++ dq ++ ":".
Definition separator : string := nl ++ nl ++ "," ++ nl ++ nl.

(** Lines 187-201: cut the array out of the body and append it. *)
Definition stitch_batch (g : Globals) (body : string) : Globals :=
  let current := body in
  let index_value := find current str_to_find in
  let current := slice current (index_value + len str_to_find) (-1) in
  let current :=
    if batch_number g =? 1
    then slice_to current (len current - 1) ++ separator
    else slice current 1 (-1) ++ separator in
  mkGlobals (continuation_token g) (result_json g ++ current) current
            (batch_number g) (has_more_results g).

(** Lines 169-209: the body of the loop, given what the POST produced. *)
Definition loop_body (g : Globals) (o : Outcome) : Step :=
  match o with
  | Returned resp =>
      if negb (status_code resp =? 401) then
        match x_ms_continuationtoken resp with
        | Some tok =>
            let g1 := mkGlobals (TokStr tok) (result_json g)
                        (current_batch_result_json g) (batch_number g + 1) true in
            Continue (stitch_batch g1 (text resp))
        | None =>
            Break (mkGlobals (continuation_token g) (result_json g)
                     (current_batch_result_json g) (batch_number g) false)
        end
      else if status_code resp =? 401 then SysExit 1 g
      else SysExit 1 g
  | Raised cls =>
      (* except Exception as e: print("Error: " + e) *)
      match str_add "Error: " (PyExcObj cls) with
      | Some _ => Continue g
      | None => Propagate "TypeError" g
      end
  end.

(** How a call ends. *)
Inductive Ending :=
| Written (content : string)
| Exited (code : Z)
| Uncaught (cls : string)
| Waiting.

Record Run := mkRun {
  ending : Ending;
  globals : Globals;
  requests : list PostData
}.

(** Lines 211-215: what is written once the loop has been left. *)
Definition finalize (g : Globals) : string :=
  let r := result_json g in
  let index_of_last_comma := rfind r "," (len r - 50) (len r) in
  slice_to r index_of_last_comma ++ "]".

(** The whole function.  [replies] lists, in order, what each successive
    [requests.post] produces; when they run out the loop is still waiting
    for the next one. *)
Fixpoint create_most_visited_json (g : Globals) (replies : list Outcome) : Run :=
  match replies with
  | [] => mkRun Waiting g []
  | o :: rest =>
      let req := _create_api_call_definitions g in
      match loop_body g o with
      | Continue g' =>
          let r := create_most_visited_json g' rest in
          mkRun (ending r) (globals r) (req :: requests r)
      | Break g' => mkRun (Written (finalize g')) g' [req]
      | SysExit code g' => mkRun (Exited code) g' [req]
      | Propagate cls g' => mkRun (Uncaught cls) g' [req]
      end
  end.

(** The command line of [parse_args], and the call [main] makes. *)
Record Args := mkArgs {
  number_of_items_for_most_visited_md : Z;
  number_of_days_for_most_visited_md : Z
}.

Definition main_fetch (args : Args) (replies : list Outcome) : Run :=
  create_most_visited_json initial_globals replies.

Definition ok_batch (tok body : string) : Outcome :=
  Returned (mkResponse 200 (Some tok) body).
Definition last_page (body : string) : Outcome :=
  Returned (mkResponse 200 None body).

Definition body_A : string :=
  "{" ++ dq ++ "value" ++ dq ++ ":[{" ++ dq ++ "id" ++ dq ++ ":1," ++ dq ++ "path"
      ++ dq ++ ":" ++ dq ++ "/A" ++ dq ++ "}]}".
Definition array_A : string :=
  "[{" ++ dq ++ "id" ++ dq ++ ":1," ++ dq ++ "path" ++ dq ++ ":" ++ dq ++ "/A" ++ dq ++ "}]".

(** ** Aggregation and the ranked table: [create_most_visited_md] *)

(** One element of a page's [viewStats] array. *)
Record ViewStat := mkViewStat {
  count : Z;
  day : string
}.

(** One element of the stitched array as [json.load] returns it; the
    [viewStats] key may be missing. *)
Record PageRecord := mkPageRecord {
  id : Z;
  path : string;
  viewStats : option (list ViewStat)
}.

(** The [page_detail] dictionaries of the first and of the second loop. *)
Record PageWithStats := mkPageWithStats {
  ws_id : Z;
  ws_path : string;
  ws_viewStats : list ViewStat
}.

Record AggregatedPage := mkAggregatedPage {
  ag_id : Z;
  ag_path : string;
  viewCountTotal : Z
}.

(** [str] of a list of dictionaries: the [repr] of each element, joined by
    a comma and a space, inside brackets.  The order of the keys and the
    quoting of [day] follow the common case; the test below only looks at
    whether anything stands between the brackets. *)
Definition repr_view_stat (v : ViewStat) : string :=
  "{'count': " ++ str_of_int (count v) ++ ", 'day': '" ++ day v ++ "'}".

Fixpoint join (sep : string) (l : list string) : string :=
  match l with
  | [] => EmptyString
  | [x] => x
  | x :: rest => x ++ sep ++ join sep rest
  end.

Definition str_of_view_stats (l : list ViewStat) : string :=
  "[" ++ join ", " (map repr_view_stat l) ++ "]".

(** [int(x)] of a value that already is an [int]. *)
Definition int_of (x : Z) : Z := x.

(** Lines 366-374. *)
Definition keep_page (acc : list PageWithStats) (item : PageRecord)
  : list PageWithStats :=
  match viewStats item with
  | Some vs =>
      if negb (String.eqb (str_of_view_stats vs) "[]")
      then acc ++ [mkPageWithStats (id item) (path item) vs]
      else acc
  | None => acc
  end.

Definition page_info_list_without_view_stats (most_visited_json : list PageRecord)
  : list PageWithStats :=
  fold_left keep_page most_visited_json [].

(** Lines 377-386. *)
Definition add_count (tmp_count : Z) (item2 : ViewStat) : Z :=
  tmp_count + int_of (count item2).

Definition total_page (acc : list AggregatedPage) (item : PageWithStats)
  : list AggregatedPage :=
  acc ++ [mkAggregatedPage (ws_id item) (ws_path item)
            (fold_left add_count (ws_viewStats item) 0)].

Definition page_info_list (most_visited_json : list PageRecord)
  : list AggregatedPage :=
  fold_left total_page (page_info_list_without_view_stats most_visited_json) [].

(** [list.sort(key=..., reverse=...)]: a stable sort on the keys; with
    [reverse] the list is reversed before and after, which keeps equal
    keys in their original order. *)
Section ListSort.
Context {A : Type} (key : A -> Z).

Fixpoint insert_sorted (x : A) (l : list A) : list A :=
  match l with
  | [] => [x]
  | y :: ys => if key x <=? key y then x :: l else y :: insert_sorted x ys
  end.

Definition stable_sort (l : list A) : list A :=
  fold_right insert_sorted [] l.

Definition list_sort (reverse : bool) (l : list A) : list A :=
  if reverse then rev (stable_sort (rev l)) else stable_sort l.
End ListSort.

Definition _sortByViewCountTotal (e : AggregatedPage) : Z := viewCountTotal e.

(** Lines 403-421: the link target [tmp_path] and the link text
    [tmp_path_link_name] of a row. *)
Definition link_path (item_path : string) : string :=
  let tmp_path := item_path in
  let tmp_path := slice tmp_path 1 (len tmp_path) in
  let tmp_path := replace tmp_path "-" "%2D" in
  let tmp_path := replace tmp_path " " "-" in
  let tmp_path := replace tmp_path "|" "%7C" in
  let tmp_path := if contains tmp_path "*" then replace tmp_path "*" "%2A" else tmp_path in
  let tmp_path := if contains tmp_path "|" then replace tmp_path "|" "%7C" else tmp_path in
  let tmp_path := if contains tmp_path ":" then replace tmp_path ":" "%3A" else tmp_path in
  tmp_path.

Definition link_name (item_path : string) : string :=
  let tmp_path_link_name := item_path in
  let tmp_path_link_name := slice tmp_path_link_name 1 (len tmp_path_link_name) in
  replace tmp_path_link_name "|" "%7C".

(** [re.sub(r'[^/]+$', '', s)]: the trailing run of characters other than
    a slash is removed. *)
Fixpoint sub_last_segment (s : string) : string :=
  match s with
  | EmptyString => EmptyString
  | String c t =>
      if contains s "/" then String c (sub_last_segment t) else EmptyString
  end.

Section Render.
(** The summarizer of [openai_worker], the clock reading and the path of
    the report. *)
Variable return_summary : string -> string.
Variable str_now : string.
Variable most_visited_md_full_path : string.

Definition title (number_of_items : Z) : string :=
  "Most visited " ++ str_of_int number_of_items ++
  " pages in last 30 days as of <b>" ++ str_now ++ " UTC </b> " ++ nl ++ nl.

Definition table_head : string :=
  " | <b>Path</b> | <b>Page Visits</b> | <b>Article Summary</b> |" ++ nl ++
  " | ---- | ------ | ------ |" ++ nl.

Definition row (item : AggregatedPage) : string :=
  let tmp_path := link_path (ag_path item) in
  " | [" ++ link_name (ag_path item) ++ "](" ++ tmp_path ++ ".md) | " ++
  str_of_int (viewCountTotal item) ++ " | " ++
  return_summary (sub_last_segment most_visited_md_full_path ++ (tmp_path ++ ".md")) ++
  " |" ++ nl.

(** Lines 398-427: [tmp_count] and [resulting_md] across the loop. *)
Definition emit_row (number_of_items : Z) (st : Z * string) (item : AggregatedPage)
  : Z * string :=
  let '(tmp_count, resulting_md) := st in
  if tmp_count <=? int_of number_of_items
  then (tmp_count + 1, resulting_md ++ row item)
  else (tmp_count, resulting_md).

(** Lines 389-430 on an aggregated list: the text written to the report. *)
Definition render (pages : list AggregatedPage) (number_of_items : Z) : string :=
  let sorted := list_sort _sortByViewCountTotal true pages in
  let resulting_md := title number_of_items ++ table_head in
  snd (fold_left (emit_row number_of_items) sorted (1, resulting_md)).

Definition create_most_visited_md (most_visited_json : list PageRecord)
    (number_of_items : Z) : string :=
  render (page_info_list most_visited_json) number_of_items.
End Render.

(** ** The article table: the emission loop of [create_new_articles_md] *)

(** Iterating over a text file: the lines of [s], each with its newline. *)
Fixpoint file_lines (s : string) : list string :=
  match s with
  | EmptyString => []
  | String c t =>
      if Ascii.eqb c (ascii_of_nat 10) then String c EmptyString :: file_lines t
      else match file_lines t with
           | [] => [String c EmptyString]
           | l :: ls => String c l :: ls
           end
  end.

(** [x in l] for a list of strings. *)
Definition list_contains (l : list string) (x : string) : bool :=
  existsb (String.eqb x) l.

(** The variables that live across the iterations of lines 304-333. *)
Record Miner := mkMiner {
  resulting_md : string;
  current_author_in_iter : string;
  current_date_in_iter : string;
  articles : list string;
  current_number_of_items : Z
}.

Definition max_number_of_items_in_md_for_last_updated_pages : Z := 2000.

(** The link text of a row, computed from its link target (line 318). *)
Definition for_link (to_use_in_md : string) : string :=
  replace (replace (replace to_use_in_md "-" " ") "%2D" "-") "%3A" ":".

(** The text appended for one row (lines 325-328). *)
Definition article_row (to_use_in_md author date : string) : string :=
  "| [" ++ for_link to_use_in_md ++ "](" ++ to_use_in_md ++ ") |" ++ author ++ "|" ++
  date ++ nl.

(** The dictionary [earliest_dates], in insertion order. *)
Definition Dict := list (string * string).

Fixpoint dict_get (d : Dict) (k : string) : option string :=
  match d with
  | [] => None
  | (k', v) :: rest => if String.eqb k' k then Some v else dict_get rest k
  end.

Fixpoint dict_set (d : Dict) (k v : string) : Dict :=
  match d with
  | [] => [(k, v)]
  | (k', v') :: rest =>
      if String.eqb k' k then (k, v) :: rest else (k', v') :: dict_set rest k v
  end.

(** Lines 267-287 for one commit log; [None] stands for the [IndexError]
    of taking element 0 of an empty list. *)
Definition earliest_step (acc : option Dict) (log : string) : option Dict :=
  match acc with
  | None => None
  | Some earliest_dates =>
      if String.eqb log EmptyString then Some earliest_dates
      else
        let lines := split log nl in
        let filename := last lines EmptyString in
        match hd_error (filter (fun line => startswith line "#ItemAuthor#") lines),
              hd_error (filter (fun line => startswith line "#ItemDate#") lines) with
        | Some author_line, Some date_line =>
            let author := slice_from author_line 12 in
            let date := slice_from date_line 10 in
            match dict_get earliest_dates filename with
            | None => Some (dict_set earliest_dates filename date)
            | Some earliest_date =>
                if String.ltb date earliest_date
                then Some (dict_set earliest_dates filename date)
                else Some earliest_dates
            end
        | _, _ => None
        end
  end.

(** Lines 262-287: the first pass over the text of the log file. *)
Definition earliest_dates (new_articles_commits : string) : option Dict :=
  let commit_logs := split (strip new_articles_commits) (nl ++ nl) in
  fold_left earliest_step commit_logs (Some []).

Section Mine.
Variable new_articles_md_full_path : string.

(** One iteration; the boolean tells whether [break] was reached. *)
Definition mine_line (m : Miner) (commit : string) : Miner * bool :=
  if startswith commit "#ItemAuthor#" then
    (mkMiner (resulting_md m)
       (replace (replace commit "#ItemAuthor#" EmptyString) nl EmptyString)
       (current_date_in_iter m) (articles m) (current_number_of_items m), false)
  else if startswith commit "#ItemDate#" then
    (mkMiner (resulting_md m) (current_author_in_iter m)
       (replace (replace commit "#ItemDate#" EmptyString) nl EmptyString)
       (articles m) (current_number_of_items m), false)
  else
    let current_page_in_iteration := replace commit nl EmptyString in
    let to_use_in_md := replace current_page_in_iteration " " "-" in
    if negb (String.eqb current_page_in_iteration EmptyString)
       && (find (resulting_md m) ("[" ++ to_use_in_md ++ "]") <? 0)
       && (find current_page_in_iteration new_articles_md_full_path <? 0)
    then
      if negb (list_contains (articles m) to_use_in_md) then
        let n := current_number_of_items m + 1 in
        (mkMiner
           (resulting_md m ++
            article_row to_use_in_md (current_author_in_iter m) (current_date_in_iter m))
           (current_author_in_iter m) (current_date_in_iter m)
           (articles m ++ [to_use_in_md]) n,
         n =? max_number_of_items_in_md_for_last_updated_pages)
      else (m, false)
    else (m, false).

Fixpoint mine_loop (m : Miner) (commits : list string) : Miner :=
  match commits with
  | [] => m
  | commit :: rest =>
      let '(m', stop) := mine_line m commit in
      if stop then m' else mine_loop m' rest
  end.

(** Lines 290-293. *)
Definition articles_head (number_of_days : Z) (str_now : string) : string :=
  "Last " ++ str_of_int number_of_days ++ " pages added to wiki, as of <b> " ++
  str_now ++ " UTC : </b> " ++ nl ++ nl ++
  " | <b>Page</b> | <b>Author</b> | <b>Date</b> | " ++ nl ++
  " | ---- | ------ | ---- | " ++ nl.

Definition mine_start (number_of_days : Z) (str_now : string) : Miner :=
  mkMiner (articles_head number_of_days str_now) EmptyString EmptyString [] 0.

Definition mine (number_of_days : Z) (str_now log : string) : Miner :=
  mine_loop (mine_start number_of_days str_now) (file_lines log).

(** The whole function on the text of the log file: [None] when the
    first pass raises [IndexError], otherwise the text written to the
    report (line 335 collapses doubled bars). *)
Definition create_new_articles_md (number_of_days : Z) (str_now log : string)
  : option string :=
  match earliest_dates log with
  | None => None
  | Some _ => Some (replace (resulting_md (mine number_of_days str_now log)) "||" "|")
  end.
End Mine.

Definition foo_log : string :=
  "#ItemAuthor#Ann" ++ nl ++ "#ItemDate#01/02/24 10:00:00" ++ nl ++ "Foo Bar.md" ++ nl ++ nl ++
  "#ItemAuthor#Bob" ++ nl ++ "#ItemDate#01/01/24 09:00:00" ++ nl ++ "Foo-Bar.md" ++ nl.

(** ** File names, git commands and the summarizer prompt *)

(** [str.endswith]. *)
Definition endswith (s suffix : string) : bool :=
  (String.length suffix <=? String.length s)%nat &&
  String.eqb (drop (String.length s - String.length suffix) s) suffix.

(** [os.path.join] of [posixpath]: a component that starts with a slash
    restarts the path, otherwise it is appended after a slash unless the
    path so far is empty or already ends with one. *)
Definition path_join_step (path b : string) : string :=
  if startswith b "/" then b
  else if String.eqb path EmptyString || endswith path "/" then path ++ b
  else path ++ "/" ++ b.

Definition os_path_join (a : string) (p : list string) : string :=
  fold_left path_join_step p a.

(** The tuple returned by [create_files_definitions]. *)
Record FilesDefinitions := mkFilesDefinitions {
  fd_local_git_repo : string;
  fd_most_visited_json : string;
  fd_most_visited_md : string;
  fd_new_articles_txt : option string;
  fd_new_articles_md : option string
}.

(** Lines 62-82; [local_base_folder] is the result of [os.getcwd()]. *)
Definition create_files_definitions (local_base_folder code_wiki_name : string)
    (max_number_of_items_in_md_for_most_visited_pages number_of_days_for_new_articles_md : Z)
    (do_new_articles : string) : FilesDefinitions :=
  let local_git_repo_full_path := local_base_folder ++ "/" ++ code_wiki_name in
  let most_visited_json_name := code_wiki_name ++ "-most-visited.json" in
  let most_visited_json_full_path :=
    os_path_join local_git_repo_full_path [most_visited_json_name] in
  let most_visited_md_name :=
    "Most-visited-" ++ str_of_int max_number_of_items_in_md_for_most_visited_pages ++
    "-pages-in-last-30-days.md" in
  let most_visited_md_full_path :=
    os_path_join local_git_repo_full_path [code_wiki_name; most_visited_md_name] in
  if String.eqb do_new_articles "1" then
    let new_articles_txt_name := code_wiki_name ++ "-new-articles.txt" in
    let new_articles_md_name :=
      "Articles-created-in-the-past-" ++ str_of_int number_of_days_for_new_articles_md ++
      "-days.md" in
    mkFilesDefinitions local_git_repo_full_path most_visited_json_full_path
      most_visited_md_full_path
      (Some (os_path_join local_git_repo_full_path [new_articles_txt_name]))
      (Some (os_path_join local_git_repo_full_path [code_wiki_name; new_articles_md_name]))
  else
    mkFilesDefinitions local_git_repo_full_path most_visited_json_full_path
      most_visited_md_full_path None None.

(** [urllib.parse.quote(s, safe='')]: the text is encoded as UTF-8 and every
    byte other than a letter, a digit or one of [_.-~] is written as a
    percent sign and two upper-case hexadecimal digits.  Characters are
    code points below 256, so the encoding has one or two bytes. *)
Definition in_range (lo hi n : nat) : bool := ((lo <=? n) && (n <=? hi))%nat.

Definition is_unreserved (c : ascii) : bool :=
  let n := nat_of_ascii c in
  in_range 65 90 n || in_range 97 122 n || in_range 48 57 n ||
  (n =? 95)%nat || (n =? 46)%nat || (n =? 45)%nat || (n =? 126)%nat.

Definition hex_digit (n : nat) : ascii :=
  match String.get n "0123456789ABCDEF" with
  | Some d => d
  | None => "0"%char
  end.

Definition percent_byte (b : nat) : string :=
  String "%"%char (String (hex_digit (b / 16)) (String (hex_digit (b mod 16)) EmptyString)).

Definition utf8_bytes (c : ascii) : list nat :=
  let n := nat_of_ascii c in
  if (n <? 128)%nat then [n] else [192 + n / 64; 128 + n mod 64]%nat.

Definition quote_char (c : ascii) : string :=
  if is_unreserved c then String c EmptyString
  else fold_right String.append EmptyString (map percent_byte (utf8_bytes c)).

Fixpoint quote (s : string) : string :=
  match s with
  | EmptyString => EmptyString
  | String c t => quote_char c ++ quote t
  end.

(** Lines 604-607: the command handed to [_wrap_git_command]. *)
Definition push_to_remote_repo (ado_username pat remote_url : string) : string :=
  let encoded_email := quote ado_username in
  let transformed_url := last (split remote_url "@dev.azure.com") EmptyString in
  let remote_url_with_pat :=
    "https://" ++ encoded_email ++ ":" ++ pat ++ "@dev.azure.com" ++ transformed_url in
  "git push " ++ remote_url_with_pat.

(** [re.search(r'([^@]+)@', email)] and its group 1: the first run of
    characters other than [@] that is followed by an [@]. *)
Fixpoint span_not_at (s : string) : string * string :=
  match s with
  | EmptyString => (EmptyString, EmptyString)
  | String c t =>
      if Ascii.eqb c "@"%char then (EmptyString, s)
      else let '(run, rest) := span_not_at t in (String c run, rest)
  end.

Fixpoint extract_username (email : string) : option string :=
  match email with
  | EmptyString => None
  | String c t =>
      if Ascii.eqb c "@"%char then extract_username t
      else match span_not_at email with
           | (run, String _ _) => Some run
           | (_, EmptyString) => None
           end
  end.

(** An f-string field holding a string or [None]. *)
Definition format_optional (name : option string) : string :=
  match name with
  | Some n => n
  | None => "None"
  end.

(** Lines 498-506: the commands [configure_git_user] issues once the
    repository is initialised. *)
Definition configure_git_user (ado_username : string) : list string :=
  let name := extract_username ado_username in
  [ "git config --unset user.name";
    "git config --unset user.email";
    "git config user.name " ++ dq ++ format_optional name ++ " via Wiki Automation" ++ dq;
    "git config user.email " ++ dq ++ ado_username ++ dq ].

(** [openai_worker.create_prompt]. *)
Record Message := mkMessage {
  sender : string;
  message_text : string
}.

Definition add_message (prompt : string) (message : Message) : string :=
  prompt ++ nl ++ "<|im_start|>" ++ sender message ++ nl ++ message_text message ++ nl ++
  "<|im_end|>".

Definition create_prompt (system_message_oai : string) (messages_oai : list Message)
  : string :=
  fold_left add_message messages_oai system_message_oai ++ nl ++ "<|im_start|>assistant" ++ nl.

(** [openai_worker.return_summary] up to the call of the model: the
    article text is cut to [max_length] characters and wrapped in the
    prompt. *)
Definition max_length : Z := 8193.

Definition truncate_article (data : string) : string :=
  if len data >? max_length then slice_to data max_length else data.

Definition system_message : string :=
  "<|im_start|>system" ++ nl ++
  "You are an AI assistant that helps summarize customer support articles. " ++
  "Do not use line breaks and new lines. " ++
  "Article summary must be a single line text." ++ nl ++ "<|im_end|>".

Definition summary_prompt (data : string) : string :=
  let data := truncate_article data in
  let messages := [mkMessage "user" ("Summarize this article: " ++ nl ++ data)] in
  create_prompt system_message messages.

(** ** Notions used to state the properties *)

Definition html_body : string := "<html>oops</html>".

(** A reply that the loop stitches, and one that ends the loop. *)
Definition is_batch (r : Response) : bool :=
  negb (status_code r =? 401) &&
  match x_ms_continuationtoken r with Some _ => true | None => false end.

Definition is_last (r : Response) : bool :=
  negb (status_code r =? 401) &&
  match x_ms_continuationtoken r with Some _ => false | None => true end.

(** The globals after one pass through the loop body. *)
Definition absorb (g : Globals) (o : Outcome) : Globals :=
  match loop_body g o with
  | Continue g' | Break g' | SysExit _ g' | Propagate _ g' => g'
  end.

(** What line 190 cuts out of a body. *)
Definition payload_of (body : string) : string :=
  slice body (find body str_to_find + len str_to_find) (-1).

(** The aggregation as the specification words it: keep the records whose
    [viewStats] is present and not empty, and total their counts. *)
Definition has_view_stats (r : PageRecord) : bool :=
  match viewStats r with
  | Some (_ :: _) => true
  | _ => false
  end.

Definition sum_counts (vs : list ViewStat) : Z :=
  fold_right Z.add 0 (map count vs).

Definition stats_of (r : PageRecord) : list ViewStat :=
  match viewStats r with
  | Some vs => vs
  | None => []
  end.

Definition aggregate (records : list PageRecord) : list AggregatedPage :=
  map (fun r => mkAggregatedPage (id r) (path r) (sum_counts (stats_of r)))
      (filter has_view_stats records).

(** The texts of a list of rows, one after the other. *)
Definition cat (rows : list string) : string :=
  fold_right String.append EmptyString rows.

(** The escaping of a link target as the specification lists it, applied
    to a path whose first character has been removed. *)
Definition escape (s : string) : string :=
  replace (replace (replace (replace (replace s "-" "%2D") " " "-") "|" "%7C") "*" "%2A")
          ":" "%3A".

(** Whether a character occurs in a string. *)
Fixpoint has_char (c : ascii) (s : string) : bool :=
  match s with
  | EmptyString => false
  | String d t => Ascii.eqb c d || has_char c t
  end.



(** The link target the loop computes for a line of the log. *)
Definition link_of_line (commit : string) : string :=
  replace (replace commit nl EmptyString) " " "-".


(** An outcome after which the loop does not go round again. *)
Definition ends_loop (o : Outcome) : bool :=
  match o with
  | Returned r => negb (is_batch r)
  | Raised _ => true
  end.

(** A reply whose body holds, where line 190 cuts, the array of the
    elements [e] between brackets. *)
Definition carries (r : Response) (e : string) : Prop :=
  is_batch r = true /\ payload_of (text r) = "[" ++ e ++ "]".

Definition element_A : string :=
  "{" ++ dq ++ "id" ++ dq ++ ":1," ++ dq ++ "path" ++ dq ++ ":" ++ dq ++ "/A" ++ dq ++ "}".

Definition numbers_42 : string := "11111,22222,33333,44444,55555,66666,777777".

Definition body_numbers : string :=
  "{" ++ dq ++ "value" ++ dq ++ ":[" ++ numbers_42 ++ "]}".

(** A line of the log for which the loop may append a row: neither an
    author nor a date line, not empty, and without the path of the report
    in it. *)
Definition eligible (new_articles_md_full_path commit : string) : bool :=
  negb (startswith commit "#ItemAuthor#") && negb (startswith commit "#ItemDate#") &&
  negb (String.eqb (replace commit nl EmptyString) EmptyString) &&
  (find (replace commit nl EmptyString) new_articles_md_full_path <? 0).

(** A commit log the first pass gets through: empty, or with an author
    line and a date line. *)
Definition chunk_complete (log : string) : bool :=
  String.eqb log EmptyString ||
  (existsb (fun line => startswith line "#ItemAuthor#") (split log nl) &&
   existsb (fun line => startswith line "#ItemDate#") (split log nl)).

(** Whether every character of a string passes a test. *)
Fixpoint all_chars (f : ascii -> bool) (s : string) : bool :=
  match s with
  | EmptyString => true
  | String c t => f c && all_chars f t
  end.

(** The fixed text of the summarizer prompt before and after the article. *)
Definition prompt_before_article : string :=
  system_message ++ nl ++ "<|im_start|>user" ++ nl ++ "Summarize this article: " ++ nl.

Definition prompt_after_article : string :=
  nl ++ "<|im_end|>" ++ nl ++ "<|im_start|>assistant" ++ nl.

(** The file name and the date the first pass reads off a commit log that
    is complete. *)
Definition chunk_entry (log : string) : option (string * string) :=
  if String.eqb log EmptyString then None
  else
    let lines := split log nl in
    match hd_error (filter (fun line => startswith line "#ItemAuthor#") lines),
          hd_error (filter (fun line => startswith line "#ItemDate#") lines) with
    | Some _, Some date_line => Some (last lines EmptyString, slice_from date_line 10)
    | _, _ => None
    end.

(** The entries of the commit logs of a file, in order. *)
Fixpoint chunk_entries (logs : list string) : list (string * string) :=
  match logs with
  | [] => []
  | log :: rest =>
      match chunk_entry log with
      | Some e => e :: chunk_entries rest
      | None => chunk_entries rest
      end
  end.

(** What the index holds with respect to the entries read: every key has
    the date of one of its entries, none of which is smaller, and every
    file name read is a key. *)
Definition index_of (d : Dict) (seen : list (string * string)) : Prop :=
  (forall f v, dict_get d f = Some v ->
     In (f, v) seen /\ forall v', In (f, v') seen -> String.ltb v' v = false) /\
  (forall f v, In (f, v) seen -> exists w, dict_get d f = Some w).


(** * Properties *)

(** ** The model on small inputs *)

Example slice_examples :
  slice "abcdef" 1 (-1) = "bcde" /\ slice_to "abc" (-1) = "ab" /\
  slice_to EmptyString (-1) = EmptyString /\ slice_from "/A b" 1 = "A b" /\
  slice "ab" 7 (-1) = EmptyString /\ slice_from "#ItemDate#x" 10 = "x".
Proof. repeat split. Qed.

Example find_examples :
  find "a,b,c" "," = 1 /\ find "abc" "," = -1 /\
  rfind "a,b,c" "," (5 - 50) 5 = 3 /\ rfind EmptyString "," (0 - 50) 0 = -1 /\
  rfind "a,b" "," 2 3 = -1.
Proof. repeat split. Qed.

Example replace_examples :
  replace "a-b c" "-" "%2D" = "a%2Db c" /\
  replace "x||||y|z" "||" "|" = "x||y|z" /\
  replace "aaa" "aa" "b" = "ba" /\
  replace "ab" EmptyString "-" = "-a-b-" /\
  str_of_int 120 = "120" /\ str_of_int 0 = "0" /\ str_of_int (-7) = "-7".
Proof. repeat split. Qed.

Example sub_last_segment_examples :
  sub_last_segment "/repo/wiki/Most-visited.md" = "/repo/wiki/" /\
  sub_last_segment "report.md" = EmptyString /\
  sub_last_segment "/a/b/" = "/a/b/".
Proof. repeat split. Qed.

Example link_examples :
  link_path "/My-Page Title" = "My%2DPage-Title" /\
  link_path "/A|B" = "A%7CB" /\ link_path "A|B" = "%7CB" /\
  link_path "/Setup Guide" = "Setup-Guide" /\ link_name "/Setup Guide" = "Setup Guide" /\
  link_path "/a*b:c" = "a%2Ab%3Ac".
Proof. repeat split. Qed.

Example aggregate_example :
  page_info_list
    [mkPageRecord 1 "/Setup Guide" (Some [mkViewStat 3 "d1"; mkViewStat 5 "d2"]);
     mkPageRecord 2 "/Empty" (Some []); mkPageRecord 3 "/None" None] =
  [mkAggregatedPage 1 "/Setup Guide" 8].
Proof. reflexivity. Qed.

Example file_lines_example :
  file_lines ("a" ++ nl ++ nl ++ "b") = ["a" ++ nl; nl; "b"].
Proof. reflexivity. Qed.

Example split_strip_examples :
  split ("a" ++ nl ++ nl ++ "b" ++ nl ++ "c") (nl ++ nl) = ["a"; "b" ++ nl ++ "c"] /\
  split "abc" nl = ["abc"] /\ split EmptyString nl = [EmptyString] /\
  split ("a" ++ nl) nl = ["a"; EmptyString] /\
  strip (nl ++ " a b " ++ nl) = "a b" /\ strip "  " = EmptyString.
Proof. repeat split. Qed.

Example earliest_dates_examples :
  earliest_dates foo_log =
    Some [("Foo Bar.md", "01/02/24 10:00:00"); ("Foo-Bar.md", "01/01/24 09:00:00")] /\
  earliest_dates ("Foo.md" ++ nl) = None /\
  earliest_dates EmptyString = Some [].
Proof. repeat split. Qed.


(** ** Facts about the string primitives *)

Module PyStrFacts.

Lemma append_nil_r (s : string) : s ++ EmptyString = s.
Proof. induction s; simpl; congruence. Qed.

Lemma append_assoc (a b c : string) : (a ++ b) ++ c = a ++ (b ++ c).
Proof. induction a; simpl; congruence. Qed.

Lemma length_append (a b : string) :
  String.length (a ++ b) = (String.length a + String.length b)%nat.
Proof. induction a; simpl; congruence. Qed.

Lemma length_take (n : nat) (s : string) :
  String.length (take n s) = Nat.min n (String.length s).
Proof.
  revert s; induction n as [|n IH]; intros [|c t]; simpl; auto.
Qed.

Lemma take_all (n : nat) (s : string) :
  (String.length s <= n)%nat -> take n s = s.
Proof.
  revert s; induction n as [|n IH]; intros [|c t] H; simpl in *; auto; try lia.
  f_equal. apply IH. lia.
Qed.

Lemma take_append (n : nat) (a b : string) :
  (String.length a <= n)%nat ->
  take n (a ++ b) = a ++ take (n - String.length a) b.
Proof.
  revert n; induction a as [|c a IH]; intros n H; simpl in *.
  - now rewrite Nat.sub_0_r.
  - destruct n as [|n]; [lia|]. simpl. f_equal. apply IH. lia.
Qed.

Lemma drop_drop (n m : nat) (s : string) : drop n (drop m s) = drop (m + n) s.
Proof.
  revert s; induction m as [|m IH]; intros s; simpl; auto.
  destruct s as [|c t]; simpl; auto. now destruct n.
Qed.

Lemma drop_append (a b : string) : drop (String.length a) (a ++ b) = b.
Proof. induction a; simpl; auto. Qed.

Lemma length_drop (n : nat) (s : string) :
  String.length (drop n s) = (String.length s - n)%nat.
Proof.
  revert s; induction n as [|n IH]; intros [|c t]; simpl; auto.
Qed.

Lemma prefix_length (p s : string) :
  String.prefix p s = true -> (String.length p <= String.length s)%nat.
Proof.
  revert s; induction p as [|a p IH]; intros [|b s] H; simpl in *; try lia; try discriminate.
  destruct (ascii_dec a b); [|discriminate]. apply IH in H. lia.
Qed.

Lemma prefix_append (a b : string) : String.prefix a (a ++ b) = true.
Proof.
  induction a as [|c a IH]; simpl; [now destruct b|].
  destruct (ascii_dec c c); congruence.
Qed.

(** A match reported by [rfind_nat] fits inside the string. *)
Lemma rfind_nat_bound (sub s : string) (n : nat) :
  rfind_nat sub s = Some n -> (n + String.length sub <= String.length s)%nat.
Proof.
  revert n; induction s as [|c t IH]; intros n H; cbn [rfind_nat] in H.
  - destruct (String.prefix sub EmptyString) eqn:E; [|discriminate].
    injection H as <-. apply prefix_length in E. simpl in *. lia.
  - destruct (rfind_nat sub t) as [k|] eqn:Ek.
    + injection H as <-. specialize (IH k eq_refl). simpl. lia.
    + destruct (String.prefix sub (String c t)) eqn:E; [|discriminate].
      injection H as <-. apply prefix_length in E. simpl in *. lia.
Qed.

(** [rfind_nat] never reports less than a known occurrence. *)
Lemma rfind_nat_ge (sub s : string) (p : nat) :
  (p <= String.length s)%nat -> String.prefix sub (drop p s) = true ->
  exists n, rfind_nat sub s = Some n /\ (p <= n)%nat.
Proof.
  revert p; induction s as [|c t IH]; intros p Hp H.
  - destruct p; cbn [drop rfind_nat String.length] in *; [|lia].
    rewrite H; exists O; split; auto.
  - destruct p as [|p]; cbn [drop String.length] in H, Hp.
    + cbn [rfind_nat]. destruct (rfind_nat sub t) as [k|].
      * exists (S k); split; auto; lia.
      * rewrite H. exists O; split; auto.
    + destruct (IH p ltac:(lia) H) as (n & Hn & Hle). cbn [rfind_nat]. rewrite Hn.
      exists (S n); split; auto; lia.
Qed.

(** Replacing something that does not occur changes nothing. *)
Lemma replace_absent (s old new : string) :
  old <> EmptyString -> contains s old = false -> replace s old new = s.
Proof.
  intros Hne H. destruct old as [|a old]; [congruence|]. unfold replace.
  unfold contains in H. induction s as [|c t IH].
  - reflexivity.
  - cbn [find_nat] in H. cbn [replace_go].
    destruct (String.prefix (String a old) (String c t)); [discriminate|].
    destruct (find_nat (String a old) t); [discriminate|].
    f_equal. apply IH. reflexivity.
Qed.

Lemma len_nonneg (s : string) : 0 <= len s.
Proof. unfold len. lia. Qed.

Lemma adjust_in_range (i n : Z) : 0 <= i <= n -> adjust i n = i.
Proof.
  intros H. unfold adjust. destruct (Z.ltb_spec i 0); lia.
Qed.

Lemma adjust_bounds (i n : Z) : 0 <= n -> 0 <= adjust i n <= n.
Proof.
  intros H. unfold adjust. destruct (Z.ltb_spec i 0); lia.
Qed.

(** Dropping the first character: [s[1:len(s)]]. *)
Lemma slice_first (c : ascii) (q : string) :
  slice (String c q) 1 (len (String c q)) = q.
Proof.
  unfold slice.
  assert (Hl : len (String c q) = 1 + len q) by (unfold len; cbn [String.length]; lia).
  pose proof (len_nonneg q).
  rewrite !adjust_in_range by lia.
  replace (Z.to_nat 1) with 1%nat by reflexivity. cbn [drop].
  apply take_all. unfold len in *. lia.
Qed.

End PyStrFacts.

Import PyStrFacts.

(** ** The paginated fetch *)

(** C1. The claim asks that the stitched file hold every element of every
    batch, and that the single batch [body_A], answered without a
    continuation header, be written as [array_A].  The loop leaves at the
    header test before it reads the body of that reply: from any state the
    file written is the same whatever that body is, and for the single
    batch nothing is appended and the file holds a lone closing bracket. *)
Theorem C1_single_batch_writes_lone_bracket :
  ending (create_most_visited_json initial_globals [last_page body_A]) = Written "]" /\
  result_json (globals (create_most_visited_json initial_globals [last_page body_A]))
    = EmptyString /\
  "]" <> array_A /\
  (forall g body rest,
     ending (create_most_visited_json g (last_page body :: rest)) = Written (finalize g)).
Proof.
  split; [reflexivity|]. split; [reflexivity|]. split; [discriminate|].
  intros g body rest. reflexivity.
Qed.

(** C2. The claim asks for a fatal API error on a status such as 500.  The
    outer test only singles out 401, so a reply with status 500 takes the
    same path as one with status 200, from any state: with a continuation
    header its body is stitched, without one the loop ends and the file is
    written.  Status 401 does end the run with exit code 1. *)
Theorem C2_status_500_is_taken_as_success :
  (forall g tok body,
     loop_body g (Returned (mkResponse 500 (Some tok) body)) =
     loop_body g (Returned (mkResponse 200 (Some tok) body))) /\
  (forall g body rest,
     ending (create_most_visited_json g (Returned (mkResponse 500 None body) :: rest)) =
     Written (finalize g)) /\
  ending (create_most_visited_json initial_globals
            [Returned (mkResponse 500 None "Internal Server Error")]) = Written "]" /\
  (forall g hdr body rest,
     ending (create_most_visited_json g (Returned (mkResponse 401 hdr body) :: rest)) =
     Exited 1).
Proof.
  repeat split; reflexivity.
Qed.

(** C9. The claim says that an exception raised by the POST is ignored and
    the request retried.  The handler evaluates ["Error: " + e] with [e] the
    exception object, which raises [TypeError] inside the handler: from any
    state the call ends there, after that single request, with the globals
    as they were and with the replies that would have followed never
    asked for. *)
Theorem C9_transport_exception_ends_the_call :
  forall g cls rest,
    let r := create_most_visited_json g (Raised cls :: rest) in
    ending r = Uncaught "TypeError" /\ globals r = g /\
    requests r = [_create_api_call_definitions g].
Proof.
  intros g cls rest. repeat split.
Qed.

Lemma requests_carry_30 (replies : list Outcome) :
  forall g req,
    In req (requests (create_most_visited_json g replies)) -> pageViewsForDays req = 30.
Proof.
  induction replies as [|o rest IH]; intros g req H; cbn [create_most_visited_json] in H.
  - destruct H.
  - destruct (loop_body g o) as [g'|g'|code g'|cls g']; cbn [requests] in H.
    + destruct H as [<-|H]; [reflexivity|]. eapply IH; eassumption.
    + destruct H as [<-|[]]; reflexivity.
    + destruct H as [<-|[]]; reflexivity.
    + destruct H as [<-|[]]; reflexivity.
Qed.

(** C8, as stated, fails: with 7 days asked for on the command line the
    request still carries 30. *)
Lemma C8_requested_days_not_sent :
  exists req,
    In req (requests (main_fetch (mkArgs 10 7) [last_page body_A])) /\
    pageViewsForDays req <> number_of_days_for_most_visited_md (mkArgs 10 7).
Proof.
  eexists; split; [left; reflexivity|]. discriminate.
Qed.

(** C8, amended. Whatever number of days the command line asks for and
    whatever the server replies, every POST body of the run carries
    [pageViewsForDays] equal to 30. *)
Theorem C8_every_request_carries_30_days :
  forall args replies req,
    In req (requests (main_fetch args replies)) -> pageViewsForDays req = 30.
Proof.
  intros args replies req H. eapply requests_carry_30; exact H.
Qed.

Lemma C8_every_request_carries_30_days_witness :
  In (mkPostData 30 (TokStr "t1"))
     (requests (main_fetch (mkArgs 10 7) [ok_batch "t1" body_A; last_page body_A])) /\
  pageViewsForDays (mkPostData 30 (TokStr "t1")) = 30.
Proof.
  split; [right; left; reflexivity|].
  apply (C8_every_request_carries_30_days (mkArgs 10 7)
           [ok_batch "t1" body_A; last_page body_A]).
  right; left; reflexivity.
Defined.

(** *** Two calls in one process *)

Lemma take_drop (n : nat) (s : string) : take n s ++ drop n s = s.
Proof.
  revert s; induction n as [|n IH]; intros [|c t]; simpl; auto. now rewrite IH.
Qed.

(** The file content is a cut of the buffer followed by the closing
    bracket; the cut removes at least one character of a buffer that is
    not empty, and at most three of a buffer that ends with the
    separator. *)
Lemma finalize_shape (g : Globals) :
  exists k : nat,
    finalize g = take k (result_json g) ++ "]" /\
    (k <= String.length (result_json g))%nat /\
    (result_json g <> EmptyString -> (k < String.length (result_json g))%nat) /\
    (forall y, result_json g = y ++ separator ->
               (String.length (result_json g) <= k + 3)%nat).
Proof.
  unfold finalize, rfind, slice_to.
  set (r := result_json g). set (n := String.length r).
  assert (HL : len r = Z.of_nat n) by reflexivity.
  pose proof (adjust_bounds (len r - 50) (len r) (len_nonneg r)) as Ha.
  set (a := adjust (len r - 50) (len r)) in *.
  rewrite (adjust_in_range (len r) (len r)) by (pose proof (len_nonneg r); lia).
  rewrite (take_all (Z.to_nat (len r - a)) (drop (Z.to_nat a) r))
    by (rewrite length_drop; fold n; lia).
  assert (Hne : r <> EmptyString -> (0 < n)%nat).
  { intros H. subst n. destruct r; [congruence|simpl; lia]. }
  destruct (rfind_nat "," (drop (Z.to_nat a) r)) as [m|] eqn:Em.
  - pose proof (rfind_nat_bound _ _ _ Em) as Hb. rewrite length_drop in Hb.
    fold n in Hb. cbn [String.length] in Hb.
    rewrite adjust_in_range by lia.
    exists (Z.to_nat (a + Z.of_nat m)). split; [reflexivity|].
    split; [lia|]. split; [lia|].
    intros y Hy.
    destruct (Nat.le_gt_cases (Z.to_nat a + 3) n) as [Hle|Hgt]; [|lia].
    destruct (rfind_nat_ge "," (drop (Z.to_nat a) r) (n - 3 - Z.to_nat a)) as (m' & Hm' & Hge).
    + rewrite length_drop. fold n. lia.
    + rewrite drop_drop.
      assert (Hn : n = (String.length y + 5)%nat).
      { subst n. rewrite Hy, length_append. reflexivity. }
      replace (Z.to_nat a + (n - 3 - Z.to_nat a))%nat with (String.length y + 2)%nat by lia.
      rewrite Hy, <- drop_drop, drop_append. reflexivity.
    + rewrite Em in Hm'. injection Hm' as <-. lia.
  - exists (Z.to_nat (adjust (-1) (len r))). split; [reflexivity|].
    unfold adjust. replace (-1 <? 0) with true by reflexivity.
    split; [lia|]. split; [intros H; apply Hne in H; lia|].
    intros y Hy. lia.
Qed.

Lemma loop_body_batch (g : Globals) (r : Response) :
  is_batch r = true ->
  exists tok,
    x_ms_continuationtoken r = Some tok /\
    loop_body g (Returned r) =
    Continue (stitch_batch
                (mkGlobals (TokStr tok) (result_json g) (current_batch_result_json g)
                   (batch_number g + 1) true) (text r)).
Proof.
  unfold is_batch, loop_body. intros H. apply andb_prop in H as [H1 H2]. rewrite H1.
  destruct (x_ms_continuationtoken r) as [tok|]; [|discriminate].
  exists tok. split; reflexivity.
Qed.

Lemma loop_body_last (g : Globals) (r : Response) :
  is_last r = true ->
  loop_body g (Returned r) =
  Break (mkGlobals (continuation_token g) (result_json g) (current_batch_result_json g)
           (batch_number g) false).
Proof.
  unfold is_last, loop_body. intros H. apply andb_prop in H as [H1 H2]. rewrite H1.
  destruct (x_ms_continuationtoken r); [discriminate|reflexivity].
Qed.

(** Each stitched reply appends one piece and the separator, and counts
    as one batch. *)
Lemma absorb_batch (g : Globals) (r : Response) :
  is_batch r = true ->
  result_json (absorb g (Returned r)) =
    result_json g ++
    (if batch_number g + 1 =? 1
     then slice_to (payload_of (text r)) (len (payload_of (text r)) - 1)
     else slice (payload_of (text r)) 1 (-1)) ++ separator /\
  batch_number (absorb g (Returned r)) = batch_number g + 1.
Proof.
  intros H. unfold absorb. destruct (loop_body_batch g r H) as (tok & _ & ->).
  unfold stitch_batch, payload_of. cbn [result_json batch_number].
  destruct (batch_number g + 1 =? 1); split; reflexivity.
Qed.

Lemma absorb_batches (bs : list Response) :
  forall g, forallb is_batch bs = true ->
    batch_number (fold_left absorb (map Returned bs) g)
      = batch_number g + Z.of_nat (List.length bs) /\
    (bs <> [] ->
     exists y, result_json (fold_left absorb (map Returned bs) g)
               = result_json g ++ y ++ separator).
Proof.
  induction bs as [|b bs IH]; intros g H.
  - split; [simpl; lia|congruence].
  - cbn [forallb] in H. apply andb_prop in H as [Hb Hbs].
    cbn [map fold_left]. destruct (IH (absorb g (Returned b)) Hbs) as [IHn IHr].
    destruct (absorb_batch g b Hb) as [Er En]. revert Er.
    set (p := if batch_number g + 1 =? 1 then _ else _). intros Er. split.
    + rewrite IHn, En. cbn [List.length]. lia.
    + intros _. destruct bs as [|b' bs'].
      * cbn [map fold_left]. rewrite Er. eexists; reflexivity.
      * destruct IHr as [y Hy]; [discriminate|]. rewrite Hy, Er.
        exists (p ++ separator ++ y). rewrite !append_assoc. reflexivity.
Qed.

(** A run over stitched replies followed by an ending one. *)
Lemma run_batches (bs : list Response) (rest : list Outcome) :
  forall g, forallb is_batch bs = true ->
    ending (create_most_visited_json g (map Returned bs ++ rest)) =
      ending (create_most_visited_json (fold_left absorb (map Returned bs) g) rest) /\
    globals (create_most_visited_json g (map Returned bs ++ rest)) =
      globals (create_most_visited_json (fold_left absorb (map Returned bs) g) rest).
Proof.
  induction bs as [|b bs IH]; intros g H.
  - split; reflexivity.
  - cbn [forallb] in H. apply andb_prop in H as [Hb Hbs].
    cbn [map app create_most_visited_json fold_left]. unfold absorb at 2 4.
    destruct (loop_body_batch g b Hb) as (tok & _ & ->). cbn [ending globals].
    apply IH. exact Hbs.
Qed.

Lemma run_last (g : Globals) (fin : Response) :
  is_last fin = true ->
  ending (create_most_visited_json g [Returned fin]) = Written (finalize g) /\
  result_json (globals (create_most_visited_json g [Returned fin])) = result_json g /\
  batch_number (globals (create_most_visited_json g [Returned fin])) = batch_number g.
Proof.
  intros H. cbn [create_most_visited_json]. rewrite (loop_body_last g fin H).
  repeat split.
Qed.

(** C7, as stated, fails: a body without the marker is cut at a fixed
    offset and its remains are written to the file. *)
Lemma C7_missing_marker_is_written :
  find html_body str_to_find = -1 /\
  ending (create_most_visited_json initial_globals [ok_batch "t1" html_body; last_page body_A])
    = Written ("ops</htm" ++ nl ++ nl ++ "]").
Proof.
  split; reflexivity.
Qed.

(** C7, amended. When a reply with a status other than 401 and with a
    continuation header has a body without the marker, [find] yields -1
    and nothing is raised: the body from offset 7 up to its last character
    is taken for the array, stripped by the rule of its batch number, and
    appended to the buffer with the separator, and the loop goes on.
    Whatever batches follow, once a final page ends the loop a file is
    written, and it begins with the buffer as it was, the piece cut from
    that body and two newlines. *)
Theorem C7_missing_marker_is_stitched :
  forall g status tok body,
    status <> 401 -> find body str_to_find = -1 ->
    let payload := slice body 7 (-1) in
    let piece := if batch_number g + 1 =? 1
                 then slice_to payload (len payload - 1)
                 else slice payload 1 (-1) in
    exists g',
      loop_body g (Returned (mkResponse status (Some tok) body)) = Continue g' /\
      result_json g' = result_json g ++ piece ++ separator /\
      batch_number g' = batch_number g + 1 /\
      (forall last_body,
         ending (create_most_visited_json g
                   [Returned (mkResponse status (Some tok) body); last_page last_body])
         = Written (finalize g')) /\
      (forall (bs : list Response) (fin : Response),
         forallb is_batch bs = true -> is_last fin = true ->
         exists out,
           ending (create_most_visited_json g
                     (Returned (mkResponse status (Some tok) body)
                      :: map Returned bs ++ [Returned fin])%list) = Written out /\
           String.prefix (result_json g ++ piece ++ nl ++ nl) out = true).
Proof.
  intros g status tok body Hs Hf payload piece.
  assert (E : (status =? 401) = false) by (apply Z.eqb_neq; exact Hs).
  set (g' := stitch_batch
               (mkGlobals (TokStr tok) (result_json g) (current_batch_result_json g)
                  (batch_number g + 1) true) body).
  assert (Hstep : loop_body g (Returned (mkResponse status (Some tok) body)) = Continue g').
  { unfold loop_body. cbn [status_code x_ms_continuationtoken text]. rewrite E.
    reflexivity. }
  assert (Hres : result_json g' = result_json g ++ piece ++ separator).
  { subst g'. unfold stitch_batch.
    cbn [result_json batch_number continuation_token has_more_results].
    rewrite Hf. subst piece payload. change (-1 + len str_to_find) with 7.
    destruct (batch_number g + 1 =? 1); reflexivity. }
  exists g'. split; [exact Hstep|]. split; [exact Hres|]. split; [reflexivity|]. split.
  - intros last_body. cbn [create_most_visited_json]. rewrite Hstep. reflexivity.
  - intros bs fin Hbs Hfin.
    cbn [create_most_visited_json]. rewrite Hstep. cbn [ending].
    destruct (run_batches bs [Returned fin] g' Hbs) as [Eb _]. rewrite Eb.
    set (gF := fold_left absorb (map Returned bs) g').
    destruct (run_last gF fin Hfin) as (L & _ & _). rewrite L.
    exists (finalize gF). split; [reflexivity|].
    assert (HF : exists w, result_json gF = (result_json g ++ piece ++ separator ++ w) ++ separator
                           \/ (w = EmptyString /\
                               result_json gF = (result_json g ++ piece) ++ separator)).
    { destruct bs as [|b bs'].
      - exists EmptyString. right. split; [reflexivity|].
        subst gF. cbn [map fold_left]. rewrite Hres. now rewrite append_assoc.
      - destruct (absorb_batches (b :: bs') g' Hbs) as [_ Hy].
        destruct Hy as [y Hy]; [discriminate|]. fold gF in Hy.
        exists y. left. rewrite Hy, Hres, !append_assoc. reflexivity. }
    destruct (finalize_shape gF) as (k & Fk & Kle & _ & Klow).
    set (P := result_json g ++ piece ++ nl ++ nl).
    assert (HP : exists z, result_json gF = P ++ z /\ (3 <= String.length z)%nat /\
                           exists y, result_json gF = y ++ separator).
    { destruct HF as (w & [Hw|[-> Hw]]).
      - exists ("," ++ nl ++ nl ++ w ++ separator). split; [|split].
        + rewrite Hw. subst P. unfold separator. rewrite !append_assoc. reflexivity.
        + cbn [append String.length nl]. lia.
        + eexists. exact Hw.
      - exists ("," ++ nl ++ nl). split; [|split].
        + rewrite Hw. subst P. unfold separator. rewrite !append_assoc. reflexivity.
        + cbn. lia.
        + eexists. exact Hw. }
    destruct HP as (z & Hz & Hlen & y & Hy).
    specialize (Klow y Hy). rewrite Fk, Hz.
    rewrite Hz, length_append in Klow, Kle.
    rewrite take_append by lia. rewrite append_assoc. apply prefix_append.
Qed.

Lemma C7_missing_marker_is_stitched_witness :
  exists g',
    loop_body initial_globals (Returned (mkResponse 200 (Some "t1") html_body)) = Continue g' /\
    result_json g' = result_json initial_globals ++ "ops</htm" ++ separator /\
    batch_number g' = batch_number initial_globals + 1 /\
    (forall last_body,
       ending (create_most_visited_json initial_globals
                 [Returned (mkResponse 200 (Some "t1") html_body); last_page last_body])
       = Written (finalize g')) /\
    (forall (bs : list Response) (fin : Response),
       forallb is_batch bs = true -> is_last fin = true ->
       exists out,
         ending (create_most_visited_json initial_globals
                   (Returned (mkResponse 200 (Some "t1") html_body)
                    :: map Returned bs ++ [Returned fin])%list) = Written out /\
         String.prefix (result_json initial_globals ++ "ops</htm" ++ nl ++ nl) out = true).
Proof.
  apply (C7_missing_marker_is_stitched initial_globals 200 "t1" html_body).
  - discriminate.
  - reflexivity.
Defined.

(** C10, as stated, fails: when the only reply is a final page, both calls
    write the same file. *)
Lemma C10_two_calls_same_file :
  ending (create_most_visited_json initial_globals [last_page body_A]) = Written "]" /\
  ending (create_most_visited_json
            (globals (create_most_visited_json initial_globals [last_page body_A]))
            [last_page body_A]) = Written "]".
Proof.
  split; reflexivity.
Qed.

(** C10, amended. Let the replies be one or more stitched batches followed
    by a final page, and let the function be called twice on them, the
    first time from the initial globals and the second time from the
    globals the first call left.  Then both calls write a file and the two
    files differ; the first file without its closing bracket, and the whole
    buffer the first call left, are prefixes of the second file; the batch
    counter is not reset, so the first batch, which the first call
    stripped of its closing bracket only, is stripped of both brackets by
    the second call and appended after the buffer of the first. *)
Theorem C10_second_call_extends_first :
  forall (bs : list Response) (fin : Response),
    bs <> [] -> forallb is_batch bs = true -> is_last fin = true ->
    let replies := (map Returned bs ++ [Returned fin])%list in
    let first := create_most_visited_json initial_globals replies in
    let second := create_most_visited_json (globals first) replies in
    exists stitched out2,
      ending first = Written (stitched ++ "]") /\
      ending second = Written out2 /\
      stitched ++ "]" <> out2 /\
      String.prefix stitched out2 = true /\
      String.prefix (result_json (globals first)) out2 = true /\
      batch_number (globals first) = Z.of_nat (List.length bs) /\
      forall b, hd_error bs = Some b ->
        result_json (absorb initial_globals (Returned b)) =
          slice_to (payload_of (text b)) (len (payload_of (text b)) - 1) ++ separator /\
        result_json (absorb (globals first) (Returned b)) =
          result_json (globals first) ++ slice (payload_of (text b)) 1 (-1) ++ separator.
Proof.
  intros bs fin Hne Hbs Hfin replies first second.
  set (g1 := fold_left absorb (map Returned bs) initial_globals).
  destruct (run_batches bs [Returned fin] initial_globals Hbs) as [E1 G1].
  destruct (run_last g1 fin Hfin) as (L1 & LR1 & LN1).
  fold g1 in E1, G1. fold replies in E1, G1. fold first in E1, G1.
  rewrite L1 in E1. rewrite <- G1 in LR1, LN1.
  destruct (absorb_batches bs initial_globals Hbs) as [N1 R1]. fold g1 in N1, R1.
  destruct (R1 Hne) as [y1 Hy1]. cbn [result_json initial_globals append] in Hy1.
  cbn [batch_number initial_globals] in N1.
  set (G := globals first) in *.
  set (g2 := fold_left absorb (map Returned bs) G).
  destruct (run_batches bs [Returned fin] G Hbs) as [E2 _].
  destruct (run_last g2 fin Hfin) as (L2 & _ & _).
  fold g2 in E2. fold replies in E2. fold second in E2. rewrite L2 in E2.
  destruct (absorb_batches bs G Hbs) as [_ R2]. fold g2 in R2.
  destruct (R2 Hne) as [y2 Hy2].
  destruct (finalize_shape g1) as (k1 & F1 & K1 & K1' & _).
  destruct (finalize_shape g2) as (k2 & F2 & K2 & _ & K2').
  assert (Hlen1 : String.length (result_json g1) = (String.length y1 + 5)%nat).
  { rewrite Hy1, length_append. reflexivity. }
  assert (K1s : (k1 < String.length (result_json g1))%nat).
  { apply K1'. intros C. rewrite C in Hlen1. simpl in Hlen1. lia. }
  rewrite LR1 in Hy2.
  assert (Hlen2 : String.length (result_json g2)
                  = (String.length (result_json g1) + String.length y2 + 5)%nat).
  { rewrite Hy2, !length_append. change (String.length separator) with 5%nat. lia. }
  assert (K2s : (String.length (result_json g2) <= k2 + 3)%nat).
  { apply (K2' (result_json g1 ++ y2)). rewrite Hy2, append_assoc. reflexivity. }
  assert (Hout2 : finalize g2 =
                  result_json g1 ++
                  (take (k2 - String.length (result_json g1)) (y2 ++ separator) ++ "]")).
  { rewrite F2, Hy2, take_append by lia. apply append_assoc. }
  exists (take k1 (result_json g1)), (finalize g2).
  split; [rewrite E1, F1; reflexivity|]. split; [exact E2|].
  split; [|split; [|split; [|split]]].
  - intros C. apply (f_equal String.length) in C.
    rewrite F2, !length_append, !length_take in C. lia.
  - rewrite Hout2. rewrite <- (take_drop k1 (result_json g1)) at 2.
    rewrite append_assoc. apply prefix_append.
  - rewrite LR1, Hout2. apply prefix_append.
  - rewrite LN1, N1. lia.
  - intros b Hb. destruct bs as [|b0 bs']; [discriminate|]. injection Hb as ->.
    cbn [forallb] in Hbs. apply andb_prop in Hbs as [Hb _].
    destruct (absorb_batch initial_globals b Hb) as [A1 _].
    destruct (absorb_batch G b Hb) as [A2 _].
    split.
    + rewrite A1. reflexivity.
    + rewrite A2. rewrite LN1, N1. cbn [List.length].
      destruct (Z.eqb_spec (0 + Z.of_nat (S (List.length bs')) + 1) 1); [lia|reflexivity].
Qed.

Lemma C10_second_call_extends_first_witness :
  exists stitched out2,
    ending (create_most_visited_json initial_globals
              [ok_batch "t1" body_A; last_page body_A]) = Written (stitched ++ "]") /\
    ending (create_most_visited_json
              (globals (create_most_visited_json initial_globals
                          [ok_batch "t1" body_A; last_page body_A]))
              [ok_batch "t1" body_A; last_page body_A]) = Written out2 /\
    stitched ++ "]" <> out2 /\
    String.prefix stitched out2 = true.
Proof.
  destruct (C10_second_call_extends_first
              [mkResponse 200 (Some "t1") body_A] (mkResponse 200 None body_A))
    as (stitched & out2 & H1 & H2 & H3 & H4 & _).
  - discriminate.
  - reflexivity.
  - reflexivity.
  - exists stitched, out2. repeat split; assumption.
Defined.

(** ** Aggregation *)

(** [str] of a list of view statistics is the text of the empty list only
    for the empty list. *)
Lemma str_of_view_stats_empty (vs : list ViewStat) :
  String.eqb (str_of_view_stats vs) "[]" = true <-> vs = [].
Proof.
  split.
  - destruct vs as [|v rest]; [reflexivity|]. intros H. exfalso. revert H.
    unfold str_of_view_stats. cbn [map join].
    destruct (map repr_view_stat rest); unfold repr_view_stat; cbn; discriminate.
  - intros ->. reflexivity.
Qed.

Lemma keep_page_spec (acc : list PageWithStats) (item : PageRecord) :
  keep_page acc item =
  if has_view_stats item
  then (acc ++ [mkPageWithStats (id item) (path item) (stats_of item)])%list
  else acc.
Proof.
  unfold keep_page, has_view_stats, stats_of.
  destruct (viewStats item) as [vs|]; [|reflexivity].
  destruct (String.eqb (str_of_view_stats vs) "[]") eqn:E.
  - apply str_of_view_stats_empty in E. subst vs. reflexivity.
  - destruct vs as [|v rest]; [discriminate E|reflexivity].
Qed.

Lemma fold_keep_page (l : list PageRecord) :
  forall acc,
    fold_left keep_page l acc =
    (acc ++ map (fun r => mkPageWithStats (id r) (path r) (stats_of r))
               (filter has_view_stats l))%list.
Proof.
  induction l as [|r l IH]; intros acc; cbn [fold_left filter].
  - now rewrite app_nil_r.
  - rewrite IH, keep_page_spec. destruct (has_view_stats r); [|reflexivity].
    cbn [map]. now rewrite <- app_assoc.
Qed.

(** The running total of the inner loop is the sum of the counts. *)
Lemma fold_add_count (vs : list ViewStat) :
  forall start, fold_left add_count vs start = start + sum_counts vs.
Proof.
  unfold sum_counts. induction vs as [|v vs IH]; intros start; cbn [fold_left map fold_right].
  - lia.
  - rewrite IH. unfold add_count, int_of. lia.
Qed.

Lemma fold_total_page (l : list PageWithStats) :
  forall acc,
    fold_left total_page l acc =
    (acc ++ map (fun p => mkAggregatedPage (ws_id p) (ws_path p) (sum_counts (ws_viewStats p)))
               l)%list.
Proof.
  induction l as [|p l IH]; intros acc; cbn [fold_left map].
  - now rewrite app_nil_r.
  - rewrite IH. unfold total_page. rewrite fold_add_count, <- app_assoc. reflexivity.
Qed.

(** C3. The two loops of the aggregation compute [aggregate]: the records
    kept are those whose [viewStats] is present and not empty, in their
    order, each with the sum of the counts of its entries as total; the
    records left out are exactly those whose [viewStats] is missing or
    empty. *)
Theorem C3_aggregation_filters_and_sums :
  forall records : list PageRecord,
    page_info_list records = aggregate records /\
    (forall r, In r records ->
       (has_view_stats r = false <-> viewStats r = None \/ viewStats r = Some [])) /\
    (forall p, In p (page_info_list records) ->
       exists r vs, In r records /\ viewStats r = Some vs /\ vs <> [] /\
                    ag_id p = id r /\ ag_path p = path r /\
                    viewCountTotal p = sum_counts vs) /\
    (forall r vs, In r records -> viewStats r = Some vs -> vs <> [] ->
       In (mkAggregatedPage (id r) (path r) (sum_counts vs)) (page_info_list records)).
Proof.
  intros records.
  assert (E : page_info_list records = aggregate records).
  { unfold page_info_list, page_info_list_without_view_stats, aggregate.
    rewrite fold_keep_page, fold_total_page. cbn [app]. rewrite map_map. reflexivity. }
  split; [exact E|]. split; [|split].
  - intros r _. unfold has_view_stats.
    destruct (viewStats r) as [[|v vs]|]; split; intros H; auto;
      try discriminate; destruct H; discriminate.
  - intros p Hp. rewrite E in Hp. unfold aggregate in Hp.
    apply in_map_iff in Hp as (r & <- & Hr). apply filter_In in Hr as [Hin Hk].
    unfold has_view_stats in Hk. unfold stats_of.
    destruct (viewStats r) as [[|v vs]|] eqn:Ev; try discriminate.
    exists r, (v :: vs). repeat split; auto. discriminate.
  - intros r vs Hin Hv Hne. rewrite E. unfold aggregate. apply in_map_iff.
    exists r. split.
    + unfold stats_of. rewrite Hv. reflexivity.
    + apply filter_In. split; [exact Hin|]. unfold has_view_stats. rewrite Hv.
      destruct vs; congruence.
Qed.

Lemma C3_aggregation_filters_and_sums_witness :
  page_info_list
    [mkPageRecord 1 "/Setup Guide" (Some [mkViewStat 3 "d1"; mkViewStat 5 "d2"]);
     mkPageRecord 2 "/Empty" (Some []); mkPageRecord 3 "/None" None]
  = aggregate
    [mkPageRecord 1 "/Setup Guide" (Some [mkViewStat 3 "d1"; mkViewStat 5 "d2"]);
     mkPageRecord 2 "/Empty" (Some []); mkPageRecord 3 "/None" None] /\
  In (mkAggregatedPage 1 "/Setup Guide" 8)
    (page_info_list
      [mkPageRecord 1 "/Setup Guide" (Some [mkViewStat 3 "d1"; mkViewStat 5 "d2"]);
       mkPageRecord 2 "/Empty" (Some []); mkPageRecord 3 "/None" None]).
Proof.
  destruct (C3_aggregation_filters_and_sums
    [mkPageRecord 1 "/Setup Guide" (Some [mkViewStat 3 "d1"; mkViewStat 5 "d2"]);
     mkPageRecord 2 "/Empty" (Some []); mkPageRecord 3 "/None" None])
    as (E & _ & _ & H).
  split; [exact E|].
  apply (H (mkPageRecord 1 "/Setup Guide" (Some [mkViewStat 3 "d1"; mkViewStat 5 "d2"]))
           [mkViewStat 3 "d1"; mkViewStat 5 "d2"]).
  - left; reflexivity.
  - reflexivity.
  - discriminate.
Defined.

(** ** Ranking *)

Section SortFacts.
Context {A : Type} (key : A -> Z).

Let ascending (a b : A) : Prop := key a <= key b.
Let descending (a b : A) : Prop := key a >= key b.
Let same_key (k : Z) (a : A) : bool := key a =? k.

Lemma insert_sorted_perm (x : A) (l : list A) :
  Permutation (insert_sorted key x l) (x :: l).
Proof.
  induction l as [|y ys IH]; cbn [insert_sorted]; [reflexivity|].
  destruct (key x <=? key y); [reflexivity|].
  rewrite IH. apply perm_swap.
Qed.

Lemma stable_sort_perm (l : list A) : Permutation (stable_sort key l) l.
Proof.
  induction l as [|x l IH]; cbn [stable_sort fold_right]; [reflexivity|].
  rewrite insert_sorted_perm. now constructor.
Qed.

Lemma insert_sorted_sorted (x : A) (l : list A) :
  StronglySorted ascending l -> StronglySorted ascending (insert_sorted key x l).
Proof.
  induction 1 as [|y ys Hs IH Hall]; cbn [insert_sorted].
  - repeat constructor.
  - destruct (Z.leb_spec (key x) (key y)) as [Hle|Hgt].
    + constructor; [now constructor|]. constructor; [exact Hle|].
      eapply Forall_impl; [|exact Hall]. unfold ascending. intros; lia.
    + constructor; [exact IH|].
      eapply Permutation_Forall; [symmetry; apply insert_sorted_perm|].
      constructor; [unfold ascending; lia|exact Hall].
Qed.

Lemma stable_sort_sorted (l : list A) : StronglySorted ascending (stable_sort key l).
Proof.
  induction l as [|x l IH]; cbn [stable_sort fold_right]; [constructor|].
  now apply insert_sorted_sorted.
Qed.

(** An inserted element only passes elements of a strictly smaller key,
    so the elements of any one key keep their order. *)
Lemma insert_sorted_stable (k : Z) (x : A) (l : list A) :
  filter (same_key k) (insert_sorted key x l) = filter (same_key k) (x :: l).
Proof.
  induction l as [|y ys IH]; cbn [insert_sorted]; [reflexivity|].
  destruct (Z.leb_spec (key x) (key y)) as [Hle|Hgt]; [reflexivity|].
  cbn [filter] in *. rewrite IH. unfold same_key.
  destruct (Z.eqb_spec (key x) k), (Z.eqb_spec (key y) k); try reflexivity. lia.
Qed.

Lemma stable_sort_stable (k : Z) (l : list A) :
  filter (same_key k) (stable_sort key l) = filter (same_key k) l.
Proof.
  induction l as [|x l IH]; cbn [stable_sort fold_right]; [reflexivity|].
  rewrite insert_sorted_stable. cbn [filter]. fold (stable_sort key l). now rewrite IH.
Qed.

Lemma sorted_rev (l : list A) :
  StronglySorted ascending l -> StronglySorted descending (rev l).
Proof.
  induction 1 as [|y ys Hs IH Hall]; cbn [rev]; [constructor|].
  assert (Hall' : Forall (fun z => descending z y) (rev ys)).
  { apply Forall_rev. eapply Forall_impl; [|exact Hall].
    unfold ascending, descending. intros; lia. }
  clear Hs Hall. induction IH as [|z zs Hzs IHz Hz]; cbn [app].
  - repeat constructor.
  - inversion Hall' as [|? ? Hzy Hrest]; subst.
    constructor; [now apply IHz|].
    apply Forall_app. split; [exact Hz|]. now repeat constructor.
Qed.

(** [list.sort(key=key, reverse=True)]: a rearrangement, in descending
    order of the key, that keeps the elements of equal key in order. *)
Lemma list_sort_reverse_spec (l : list A) :
  Permutation (list_sort key true l) l /\
  StronglySorted descending (list_sort key true l) /\
  forall k, filter (same_key k) (list_sort key true l) = filter (same_key k) l.
Proof.
  unfold list_sort. split; [|split].
  - rewrite <- Permutation_rev, stable_sort_perm. symmetry. apply Permutation_rev.
  - apply sorted_rev, stable_sort_sorted.
  - intros k. rewrite filter_rev, stable_sort_stable, <- filter_rev, rev_involutive.
    reflexivity.
Qed.
End SortFacts.

Section RenderFacts.
Variable return_summary : string -> string.
Variable str_now : string.
Variable most_visited_md_full_path : string.

Let row' := row return_summary most_visited_md_full_path.

(** The loop appends the rows of the first [N + 1 - tmp_count] items. *)
Lemma fold_emit_row (number_of_items : Z) (l : list AggregatedPage) :
  forall tmp_count resulting_md,
    snd (fold_left (emit_row return_summary most_visited_md_full_path number_of_items)
           l (tmp_count, resulting_md)) =
    resulting_md ++
    cat (map row' (firstn (Z.to_nat (number_of_items + 1 - tmp_count)) l)).
Proof.
  induction l as [|x l IH]; intros c md; cbn [fold_left].
  - rewrite firstn_nil. cbn. now rewrite append_nil_r.
  - unfold emit_row at 2. unfold int_of.
    destruct (Z.leb_spec c number_of_items) as [Hle|Hgt].
    + rewrite IH.
      replace (Z.to_nat (number_of_items + 1 - c))
        with (S (Z.to_nat (number_of_items + 1 - (c + 1)))) by lia.
      cbn [firstn map cat fold_right]. now rewrite append_assoc.
    + rewrite IH.
      replace (Z.to_nat (number_of_items + 1 - c)) with O by lia.
      reflexivity.
Qed.

Lemma render_spec (pages : list AggregatedPage) (number_of_items : Z) :
  render return_summary str_now most_visited_md_full_path pages number_of_items =
  (title str_now number_of_items ++ table_head) ++
  cat (map row' (firstn (Z.to_nat number_of_items)
                   (list_sort _sortByViewCountTotal true pages))).
Proof.
  unfold render. rewrite fold_emit_row.
  replace (number_of_items + 1 - 1) with number_of_items by lia. reflexivity.
Qed.
End RenderFacts.

(** C4. For every summarizer, report path, list of aggregated pages and
    requested number of items: the sort rearranges the pages in descending
    order of [viewCountTotal] and keeps pages of equal total in their
    original order; the report is the title line, the two heading lines
    and, for each of the first [topN] pages of that order (all of them
    when there are fewer), one line with the link of the page, its total
    and its summary; and with one item requested and two pages of totals
    10 and 20, the line of the page of total 20 is the only data row. *)
Theorem C4_sorted_stable_top_rows :
  forall (return_summary : string -> string) (str_now md_path : string)
         (pages : list AggregatedPage) (topN : Z),
    let ranked := list_sort _sortByViewCountTotal true pages in
    let data_row := fun item : AggregatedPage =>
      " | [" ++ link_name (ag_path item) ++ "](" ++ link_path (ag_path item) ++ ".md) | " ++
      str_of_int (viewCountTotal item) ++ " | " ++
      return_summary (sub_last_segment md_path ++ (link_path (ag_path item) ++ ".md")) ++
      " |" ++ nl in
    Permutation ranked pages /\
    StronglySorted (fun a b => viewCountTotal a >= viewCountTotal b) ranked /\
    (forall k, filter (fun p => viewCountTotal p =? k) ranked =
               filter (fun p => viewCountTotal p =? k) pages) /\
    render return_summary str_now md_path pages topN =
      (("Most visited " ++ str_of_int topN ++ " pages in last 30 days as of <b>" ++
        str_now ++ " UTC </b> " ++ nl ++ nl) ++
       (" | <b>Path</b> | <b>Page Visits</b> | <b>Article Summary</b> |" ++ nl ++
        " | ---- | ------ | ------ |" ++ nl)) ++
      fold_right String.append EmptyString
        (map data_row (firstn (Z.to_nat topN) ranked)) /\
    (forall id10 path10 id20 path20,
       render return_summary str_now md_path
         [mkAggregatedPage id10 path10 10; mkAggregatedPage id20 path20 20] 1 =
       "Most visited 1 pages in last 30 days as of <b>" ++ str_now ++ " UTC </b> " ++ nl ++ nl ++
       " | <b>Path</b> | <b>Page Visits</b> | <b>Article Summary</b> |" ++ nl ++
       " | ---- | ------ | ------ |" ++ nl ++
       " | [" ++ link_name path20 ++ "](" ++ link_path path20 ++ ".md) | 20 | " ++
       return_summary (sub_last_segment md_path ++ link_path path20 ++ ".md") ++ " |" ++ nl) /\
    render return_summary str_now "/repo/wiki/Most-visited.md"
      [mkAggregatedPage 1 "/Low Page" 10; mkAggregatedPage 2 "/Top-Page" 20] 1 =
    "Most visited 1 pages in last 30 days as of <b>" ++ str_now ++ " UTC </b> " ++ nl ++ nl ++
    " | <b>Path</b> | <b>Page Visits</b> | <b>Article Summary</b> |" ++ nl ++
    " | ---- | ------ | ------ |" ++ nl ++
    " | [Top-Page](Top%2DPage.md) | 20 | " ++
    return_summary "/repo/wiki/Top%2DPage.md" ++ " |" ++ nl.
Proof.
  intros return_summary str_now md_path pages topN ranked data_row.
  destruct (list_sort_reverse_spec _sortByViewCountTotal pages) as (Hp & Hs & Hf).
  split; [exact Hp|]. split; [exact Hs|]. split; [exact Hf|].
  split; [apply render_spec|].
  assert (Hone : forall path ia pa ib pb,
            render return_summary str_now path
              [mkAggregatedPage ia pa 10; mkAggregatedPage ib pb 20] 1 =
            (title str_now 1 ++ table_head) ++
            row return_summary path (mkAggregatedPage ib pb 20)).
  { intros path ia pa ib pb. rewrite render_spec.
    cbn [list_sort rev app stable_sort fold_right insert_sorted _sortByViewCountTotal
         viewCountTotal Z.leb Z.compare Pos.compare Pos.compare_cont Z.to_nat].
    change (Pos.to_nat 1) with 1%nat. cbn [firstn map cat fold_right].
    now rewrite append_nil_r. }
  split.
  - intros id10 path10 id20 path20.
    rewrite (Hone md_path id10 path10 id20 path20).
    unfold title, table_head, row. cbn [ag_path viewCountTotal].
    rewrite !append_assoc. reflexivity.
  - rewrite (Hone "/repo/wiki/Most-visited.md" 1 "/Low Page" 2 "/Top-Page").
    unfold title, table_head, row. cbn [ag_path viewCountTotal].
    rewrite !append_assoc. reflexivity.
Qed.

(** ** Escaping of paths *)

Lemma prefix_empty (s : string) : String.prefix EmptyString s = true.
Proof. now destruct s. Qed.

Lemma prefix_single (c d : ascii) (t : string) :
  String.prefix (String c EmptyString) (String d t) = Ascii.eqb c d.
Proof.
  cbn [String.prefix]. destruct (ascii_dec c d) as [->|Hne].
  - now rewrite prefix_empty, Ascii.eqb_refl.
  - symmetry. now apply Ascii.eqb_neq.
Qed.

Lemma contains_single (c : ascii) (s : string) :
  contains s (String c EmptyString) = has_char c s.
Proof.
  unfold contains. induction s as [|d t IH]; [reflexivity|].
  cbn [find_nat has_char]. rewrite prefix_single.
  destruct (Ascii.eqb c d); [reflexivity|]. cbn [orb]. rewrite <- IH.
  now destruct (find_nat (String c EmptyString) t).
Qed.

Lemma has_char_append (c : ascii) (a b : string) :
  has_char c (a ++ b) = has_char c a || has_char c b.
Proof.
  induction a as [|d a IH]; [reflexivity|]. cbn [append has_char].
  now rewrite IH, orb_assoc.
Qed.

(** Replacing one character: the text is rebuilt character by character. *)
Lemma replace_single_cons (d c : ascii) (t new : string) :
  replace (String c t) (String d EmptyString) new =
  if Ascii.eqb d c then new ++ replace t (String d EmptyString) new
  else String c (replace t (String d EmptyString) new).
Proof.
  unfold replace. cbn [replace_go]. rewrite prefix_single. reflexivity.
Qed.

(** A character that is replaced, and that the replacement text does not
    bring back, is gone; any other character is there afterwards only if
    it was there before or comes with the replacement text. *)
Lemma has_char_replace (c d : ascii) (s new : string) :
  has_char c new = false ->
  has_char c (replace s (String d EmptyString) new) =
  if Ascii.eqb c d then false else has_char c s.
Proof.
  intros Hnew. induction s as [|e t IH].
  - cbn. now destruct (Ascii.eqb c d).
  - rewrite replace_single_cons. destruct (Ascii.eqb_spec d e) as [<-|Hde].
    + rewrite has_char_append, Hnew, IH. cbn [orb has_char].
      destruct (Ascii.eqb c d); reflexivity.
    + cbn [has_char]. rewrite IH. destruct (Ascii.eqb_spec c d) as [->|Hcd].
      * apply Ascii.eqb_neq in Hde. now rewrite Hde.
      * reflexivity.
Qed.

(** A guarded replacement is the replacement. *)
Lemma guarded_replace (s old new : string) :
  old <> EmptyString ->
  (if contains s old then replace s old new else s) = replace s old new.
Proof.
  intros H. destruct (contains s old) eqn:E; [reflexivity|].
  symmetry. now apply replace_absent.
Qed.

Lemma link_path_spec (p : string) : link_path p = escape (slice p 1 (len p)).
Proof.
  unfold link_path, escape.
  set (t := replace (replace (replace (slice p 1 (len p)) "-" "%2D") " " "-") "|" "%7C").
  rewrite (guarded_replace t "*" "%2A") by discriminate.
  assert (H : contains (replace t "*" "%2A") "|" = false).
  { rewrite contains_single, has_char_replace by reflexivity.
    cbn [Ascii.eqb Bool.eqb andb]. unfold t.
    rewrite has_char_replace by reflexivity. reflexivity. }
  rewrite H. apply guarded_replace. discriminate.
Qed.

(** C5, as stated, fails: the first character goes whether or not it is a
    slash, so the path ["A|B"] loses its [A]. *)
Lemma C5_first_character_always_dropped :
  link_path "A|B" = "%7CB" /\ link_path "A|B" <> "A%7CB".
Proof.
  split; [reflexivity|discriminate].
Qed.

(** C5, amended. The link target of a path is obtained by removing its
    first character, whatever it is, and then replacing, in this order,
    [-] by [%2D], space by [-], [|] by [%7C], [*] by [%2A] and [:] by
    [%3A]; the link text is the path without its first character with
    only [|] replaced by [%7C].  So ["/My-Page Title"] gives
    [My%2DPage-Title] and ["/A|B"] gives [A%7CB]. *)
Theorem C5_link_path_escaping :
  (forall p, link_path p = escape (slice p 1 (len p)) /\
             link_name p = replace (slice p 1 (len p)) "|" "%7C") /\
  (forall c rest, link_path (String c rest) = escape rest /\
                  link_name (String c rest) = replace rest "|" "%7C") /\
  link_path "/My-Page Title" = "My%2DPage-Title" /\
  link_path "/A|B" = "A%7CB" /\
  link_name "/A|B" = "A%7CB" /\
  link_name "/My-Page Title" = "My-Page Title".
Proof.
  split; [|split].
  - intros p. split; [apply link_path_spec|reflexivity].
  - intros c rest. rewrite link_path_spec. unfold link_name.
    rewrite slice_first. split; reflexivity.
  - repeat split.
Qed.

(** ** The article table *)




Section MineFacts.
Variable new_articles_md_full_path : string.


End MineFacts.




(** * Further properties of the code *)

(** ** The pagination protocol *)

Lemma ends_loop_not_continue (g : Globals) (o : Outcome) :
  ends_loop o = true ->
  exists e g', (loop_body g o = Break g' \/ (exists c, loop_body g o = SysExit c g') \/
                (exists c, loop_body g o = Propagate c g')) /\
               create_most_visited_json g [o] =
                 mkRun e g' [_create_api_call_definitions g] /\
               forall rest, create_most_visited_json g (o :: rest) =
                            create_most_visited_json g [o].
Proof.
  intros H. destruct o as [r|cls]; cbn [ends_loop] in H.
  - unfold is_batch in H. cbn [create_most_visited_json]. unfold loop_body.
    destruct (status_code r =? 401) eqn:E; cbn [negb andb] in *.
    + do 2 eexists. split; [right; left; eexists; reflexivity|]. split; reflexivity.
    + destruct (x_ms_continuationtoken r); [discriminate|].
      do 2 eexists. split; [left; reflexivity|]. split; reflexivity.
  - cbn [create_most_visited_json loop_body str_add].
    do 2 eexists. split; [right; right; eexists; reflexivity|]. split; reflexivity.
Qed.

(** Every request carries the token of the reply before it: the first one
    the token the globals hold, each later one the continuation header of
    the previous reply.  One request is made per reply up to and including
    the one that ends the loop. *)
Theorem requests_chain_tokens :
  forall (bs : list Response) (toks : list string) (g : Globals) (o : Outcome)
         (rest : list Outcome),
    forallb is_batch bs = true ->
    map x_ms_continuationtoken bs = map Some toks ->
    ends_loop o = true ->
    requests (create_most_visited_json g (map Returned bs ++ o :: rest)) =
    map (mkPostData 30) (continuation_token g :: map TokStr toks).
Proof.
  induction bs as [|b bs IH]; intros toks g o rest Hbs Htok Ho.
  - destruct toks; [|discriminate]. cbn [map app].
    destruct (ends_loop_not_continue g o Ho) as (e & g' & _ & E1 & Er).
    rewrite Er, E1. reflexivity.
  - destruct toks as [|t toks]; [discriminate|]. cbn [map] in Htok.
    injection Htok as Ht Htoks.
    cbn [forallb] in Hbs. apply andb_prop in Hbs as [Hb Hbs].
    cbn [map app create_most_visited_json].
    destruct (loop_body_batch g b Hb) as (tok & Etok & ->). cbn [requests].
    rewrite (IH toks _ o rest Hbs Htoks Ho).
    unfold stitch_batch. cbn [continuation_token map].
    rewrite Ht in Etok. injection Etok as <-. reflexivity.
Qed.

Lemma requests_chain_tokens_witness :
  requests (create_most_visited_json initial_globals
              (map Returned [mkResponse 200 (Some "t1") body_A;
                             mkResponse 200 (Some "t2") body_A]
               ++ last_page body_A :: [ok_batch "t3" body_A])) =
  map (mkPostData 30) (continuation_token initial_globals :: map TokStr ["t1"; "t2"]).
Proof.
  apply (requests_chain_tokens
           [mkResponse 200 (Some "t1") body_A; mkResponse 200 (Some "t2") body_A]
           ["t1"; "t2"] initial_globals (last_page body_A) [ok_batch "t3" body_A]);
    reflexivity.
Defined.

(** Whatever would be replied after the reply that ends the loop (a final
    page, a 401, an exception) has no effect on the run. *)
Theorem replies_after_the_end_are_ignored :
  forall (bs : list Response) (g : Globals) (o : Outcome) (rest : list Outcome),
    forallb is_batch bs = true -> ends_loop o = true ->
    create_most_visited_json g (map Returned bs ++ o :: rest) =
    create_most_visited_json g (map Returned bs ++ [o]).
Proof.
  induction bs as [|b bs IH]; intros g o rest Hbs Ho.
  - cbn [map app]. destruct (ends_loop_not_continue g o Ho) as (e & g' & _ & _ & Er).
    apply Er.
  - cbn [forallb] in Hbs. apply andb_prop in Hbs as [Hb Hbs].
    cbn [map app create_most_visited_json].
    destruct (loop_body_batch g b Hb) as (tok & _ & ->).
    now rewrite (IH _ o rest Hbs Ho).
Qed.

Lemma replies_after_the_end_are_ignored_witness :
  create_most_visited_json initial_globals
    (map Returned [mkResponse 200 (Some "t1") body_A]
     ++ Returned (mkResponse 401 None html_body) :: [last_page body_A]) =
  create_most_visited_json initial_globals
    (map Returned [mkResponse 200 (Some "t1") body_A]
     ++ [Returned (mkResponse 401 None html_body)]).
Proof.
  apply (replies_after_the_end_are_ignored [mkResponse 200 (Some "t1") body_A]
           initial_globals (Returned (mkResponse 401 None html_body)) [last_page body_A]);
    reflexivity.
Defined.

(** ** What the stitched file holds *)

Lemma rfind_nat_sound (sub s : string) (n : nat) :
  rfind_nat sub s = Some n -> String.prefix sub (drop n s) = true.
Proof.
  revert n; induction s as [|c t IH]; intros n H; cbn [rfind_nat] in H.
  - destruct (String.prefix sub EmptyString) eqn:E; [|discriminate].
    injection H as <-. exact E.
  - destruct (rfind_nat sub t) as [k|].
    + injection H as <-. cbn [drop]. now apply IH.
    + destruct (String.prefix sub (String c t)) eqn:E; [|discriminate].
      injection H as <-. exact E.
Qed.

Lemma drop_append_plus (k : nat) (a b : string) :
  drop (String.length a + k) (a ++ b) = drop k b.
Proof. now rewrite <- drop_drop, drop_append. Qed.

Lemma take_append_plus (k : nat) (a b : string) :
  take (String.length a + k) (a ++ b) = a ++ take k b.
Proof.
  rewrite take_append by lia. f_equal. f_equal. lia.
Qed.

(** The closing step on a buffer that ends with the separator.  The comma
    is looked for in the last 50 characters, but for a buffer shorter than
    50 the negative start index counts from the end a second time: at
    lengths 48 and 49 the window starts after the comma, nothing is found,
    and only the last character is cut. *)
Lemma finalize_exact (g : Globals) (y : string) :
  result_json g = y ++ separator ->
  finalize g =
  if ((String.length (result_json g) =? 48) || (String.length (result_json g) =? 49))%nat
  then y ++ nl ++ nl ++ "," ++ nl ++ "]"
  else y ++ nl ++ nl ++ "]".
Proof.
  intros Hy. unfold finalize, rfind, slice_to.
  set (r := result_json g) in *. set (n := String.length r).
  assert (HL : len r = Z.of_nat n) by reflexivity.
  assert (Hn : n = (String.length y + 5)%nat).
  { subst n. rewrite Hy, length_append. reflexivity. }
  rewrite (adjust_in_range (len r) (len r)) by lia.
  set (a := adjust (len r - 50) (len r)).
  assert (Ha : a = if len r - 50 <? 0 then Z.max (len r - 50 + len r) 0
                   else Z.min (len r - 50) (len r)) by reflexivity.
  assert (Ha0 : 0 <= a <= len r).
  { rewrite Ha. destruct (Z.ltb_spec (len r - 50) 0); lia. }
  rewrite (take_all (Z.to_nat (len r - a)) (drop (Z.to_nat a) r))
    by (rewrite length_drop; fold n; lia).
  destruct ((n =? 48) || (n =? 49))%nat eqn:Ebad.
  - (* the window starts after the comma *)
    assert (Hk : exists k, (k = 3 \/ k = 4)%nat /\ Z.to_nat a = (String.length y + k)%nat).
    { apply orb_prop in Ebad as [E|E]; apply Nat.eqb_eq in E;
        rewrite Ha, HL, E; cbn; [exists 3%nat|exists 4%nat]; split; auto; lia. }
    destruct Hk as (k & Hk & Eak). rewrite Eak, Hy, drop_append_plus.
    assert (Enone : rfind_nat "," (drop k separator) = None)
      by (destruct Hk as [-> | ->]; reflexivity).
    rewrite Enone. rewrite <- Hy.
    assert (Eadj : Z.to_nat (adjust (-1) (len r)) = (String.length y + 4)%nat).
    { unfold adjust. replace (-1 <? 0) with true by reflexivity. lia. }
    rewrite Eadj, Hy, take_append_plus. cbn [take separator nl append].
    rewrite !append_assoc. reflexivity.
  - apply orb_false_elim in Ebad as [E48 E49].
    apply Nat.eqb_neq in E48. apply Nat.eqb_neq in E49.
    assert (Hwin : (Z.to_nat a + 3 <= n)%nat).
    { rewrite Ha. destruct (Z.ltb_spec (len r - 50) 0); lia. }
    destruct (rfind_nat_ge "," (drop (Z.to_nat a) r) (n - 3 - Z.to_nat a)) as (m & Em & Hge).
    + rewrite length_drop. fold n. lia.
    + rewrite drop_drop.
      replace (Z.to_nat a + (n - 3 - Z.to_nat a))%nat with (String.length y + 2)%nat by lia.
      rewrite Hy, drop_append_plus. reflexivity.
    + rewrite Em.
      pose proof (rfind_nat_bound _ _ _ Em) as Hb. rewrite length_drop in Hb.
      fold n in Hb. cbn [String.length] in Hb.
      pose proof (rfind_nat_sound _ _ _ Em) as Hs. rewrite drop_drop in Hs.
      assert (Hm : (Z.to_nat a + m = String.length y + 2)%nat).
      { assert (Hc : exists j, (j = 2 \/ j = 3 \/ j = 4)%nat /\
                     (Z.to_nat a + m = String.length y + j)%nat).
        { exists (Z.to_nat a + m - String.length y)%nat. lia. }
        destruct Hc as (j & Hj & Ej). rewrite Ej, Hy, drop_append_plus in Hs.
        destruct Hj as [-> | [-> | ->]]; [exact Ej|discriminate Hs|discriminate Hs]. }
      rewrite adjust_in_range by lia.
      replace (Z.to_nat (a + Z.of_nat m)) with (String.length y + 2)%nat by lia.
      rewrite Hy, take_append_plus. cbn [take separator nl append].
      rewrite !append_assoc. reflexivity.
Qed.

Lemma slice_strip_last (s : string) (c : ascii) :
  slice_to (s ++ String c EmptyString) (len (s ++ String c EmptyString) - 1) = s.
Proof.
  unfold slice_to, len. rewrite length_append. cbn [String.length].
  rewrite adjust_in_range by lia.
  replace (Z.to_nat (Z.of_nat (String.length s + 1) - 1)) with (String.length s + 0)%nat by lia.
  rewrite take_append_plus. cbn [take]. apply append_nil_r.
Qed.

Lemma slice_strip_both (a c : ascii) (s : string) :
  slice (String a (s ++ String c EmptyString)) 1 (-1) = s.
Proof.
  unfold slice, len. cbn [String.length]. rewrite length_append. cbn [String.length].
  rewrite (adjust_in_range 1) by lia.
  unfold adjust. replace (-1 <? 0) with true by reflexivity.
  rewrite Z.max_l by lia. replace (Z.to_nat 1) with 1%nat by reflexivity. cbn [drop].
  replace (Z.to_nat (-1 + Z.of_nat (S (String.length s + 1)) - 1))
    with (String.length s + 0)%nat by lia.
  rewrite take_append_plus. cbn [take]. apply append_nil_r.
Qed.

Lemma cat_separated (e : string) (es : list string) :
  cat (map (fun x => x ++ separator) (e :: es)) = join separator (e :: es) ++ separator.
Proof.
  revert e; induction es as [|e' es IH]; intros e.
  - cbn. now rewrite append_nil_r.
  - change (cat (map (fun x => x ++ separator) (e :: e' :: es)))
      with ((e ++ separator) ++ cat (map (fun x => x ++ separator) (e' :: es))).
    rewrite IH. cbn [join]. now rewrite !append_assoc.
Qed.

(** Batches after the first are stripped of both brackets. *)
Lemma absorb_later_batches (bs : list Response) :
  forall (es : list string) (g : Globals),
    Forall2 carries bs es -> 1 <= batch_number g ->
    result_json (fold_left absorb (map Returned bs) g) =
    result_json g ++ cat (map (fun x => x ++ separator) es).
Proof.
  induction bs as [|b bs IH]; intros es g H Hn; inversion H as [|? e ? es' [Hb He] Hrest]; subst.
  - cbn. now rewrite append_nil_r.
  - cbn [map fold_left]. destruct (absorb_batch g b Hb) as [Er En].
    rewrite (IH es' _ Hrest) by lia. rewrite Er.
    destruct (Z.eqb_spec (batch_number g + 1) 1) as [E|_]; [lia|].
    rewrite He. change ("[" ++ e ++ "]") with (String "[" (e ++ String "]" EmptyString)).
    rewrite slice_strip_both. cbn [map cat fold_right]. now rewrite !append_assoc.
Qed.

(** The buffer a first call builds from batches that carry their arrays:
    an opening bracket and the elements of each batch, every batch
    followed by the separator. *)
Lemma stitched_buffer (bs : list Response) (e : string) (es : list string) :
  Forall2 carries bs (e :: es) ->
  result_json (fold_left absorb (map Returned bs) initial_globals) =
  ("[" ++ join separator (e :: es)) ++ separator.
Proof.
  intros H. inversion H as [|b ? bs' ? [Hb He] Hrest]; subst.
  cbn [map fold_left]. destruct (absorb_batch initial_globals b Hb) as [Er En].
  rewrite (absorb_later_batches bs' es _ Hrest) by (rewrite En; cbn; lia).
  rewrite Er. cbn [batch_number initial_globals result_json Z.add Z.eqb Pos.eqb append].
  rewrite He. change ("[" ++ e ++ "]") with (("[" ++ e) ++ String "]" EmptyString).
  rewrite slice_strip_last, <- cat_separated.
  unfold cat. cbn [map fold_right append]. reflexivity.
Qed.

Lemma carries_are_batches (bs : list Response) (es : list string) :
  Forall2 carries bs es -> forallb is_batch bs = true.
Proof.
  induction 1 as [|b e bs es [Hb _] _ IH]; [reflexivity|].
  cbn [forallb]. now rewrite Hb, IH.
Qed.

Lemma stitched_file (bs : list Response) (e : string) (es : list string) (fin : Response) :
  Forall2 carries bs (e :: es) -> is_last fin = true ->
  ending (create_most_visited_json initial_globals (map Returned bs ++ [Returned fin])) =
  Written
    (if ((String.length ("[" ++ join separator (e :: es)) + 5 =? 48) ||
         (String.length ("[" ++ join separator (e :: es)) + 5 =? 49))%nat
     then ("[" ++ join separator (e :: es)) ++ nl ++ nl ++ "," ++ nl ++ "]"
     else ("[" ++ join separator (e :: es)) ++ nl ++ nl ++ "]").
Proof.
  intros H Hfin.
  destruct (run_batches bs [Returned fin] initial_globals (carries_are_batches _ _ H))
    as [E _].
  rewrite E.
  destruct (run_last (fold_left absorb (map Returned bs) initial_globals) fin Hfin)
    as (L & _ & _).
  rewrite L.
  pose proof (stitched_buffer bs e es H) as Hbuf.
  rewrite (finalize_exact _ _ Hbuf), Hbuf, length_append. reflexivity.
Qed.

(** When every batch carries its array between brackets where line 190
    cuts, and the buffer does not end up 48 or 49 characters long, the
    file of a first call holds an opening bracket, the elements of the
    batches joined by the separator, two newlines and a closing bracket.
    The elements of the final page are not in it. *)
Theorem stitched_file_joins_carried_batches :
  forall (bs : list Response) (e : string) (es : list string) (fin : Response),
    Forall2 carries bs (e :: es) -> is_last fin = true ->
    (String.length ("[" ++ join separator (e :: es)) + 5 <> 48)%nat ->
    (String.length ("[" ++ join separator (e :: es)) + 5 <> 49)%nat ->
    ending (create_most_visited_json initial_globals (map Returned bs ++ [Returned fin])) =
    Written (("[" ++ join separator (e :: es)) ++ nl ++ nl ++ "]").
Proof.
  intros bs e es fin H Hfin H48 H49. rewrite (stitched_file bs e es fin H Hfin).
  apply Nat.eqb_neq in H48. apply Nat.eqb_neq in H49. now rewrite H48, H49.
Qed.

Lemma stitched_file_joins_carried_batches_witness :
  ending (create_most_visited_json initial_globals
            (map Returned [mkResponse 200 (Some "t1") body_A; mkResponse 200 (Some "t2") body_A]
             ++ [Returned (mkResponse 200 None body_A)])) =
  Written (("[" ++ join separator [element_A; element_A]) ++ nl ++ nl ++ "]").
Proof.
  apply (stitched_file_joins_carried_batches
           [mkResponse 200 (Some "t1") body_A; mkResponse 200 (Some "t2") body_A]
           element_A [element_A] (mkResponse 200 None body_A)).
  - repeat constructor.
  - reflexivity.
  - vm_compute. discriminate.
  - vm_compute. discriminate.
Defined.

(** When the buffer of such a call is 48 or 49 characters long, the comma
    of the last separator is not removed: the file ends with a comma
    before its closing bracket. *)
Theorem stitched_file_keeps_comma_at_48_or_49 :
  forall (bs : list Response) (e : string) (es : list string) (fin : Response),
    Forall2 carries bs (e :: es) -> is_last fin = true ->
    (String.length ("[" ++ join separator (e :: es)) + 5 = 48 \/
     String.length ("[" ++ join separator (e :: es)) + 5 = 49)%nat ->
    ending (create_most_visited_json initial_globals (map Returned bs ++ [Returned fin])) =
    Written (("[" ++ join separator (e :: es)) ++ nl ++ nl ++ "," ++ nl ++ "]").
Proof.
  intros bs e es fin H Hfin Hn. rewrite (stitched_file bs e es fin H Hfin).
  destruct Hn as [Hn|Hn]; rewrite Hn; reflexivity.
Qed.

Lemma stitched_file_keeps_comma_at_48_or_49_witness :
  ending (create_most_visited_json initial_globals
            (map Returned [mkResponse 200 (Some "t1") body_numbers]
             ++ [Returned (mkResponse 200 None body_A)])) =
  Written (("[" ++ join separator [numbers_42]) ++ nl ++ nl ++ "," ++ nl ++ "]").
Proof.
  apply (stitched_file_keeps_comma_at_48_or_49
           [mkResponse 200 (Some "t1") body_numbers] numbers_42 []
           (mkResponse 200 None body_A)).
  - repeat constructor.
  - reflexivity.
  - left. reflexivity.
Defined.

(** ** The ranked report *)

Lemma page_info_list_aggregate (records : list PageRecord) :
  page_info_list records = aggregate records.
Proof.
  unfold page_info_list, page_info_list_without_view_stats, aggregate.
  rewrite fold_keep_page, fold_total_page. cbn [app]. now rewrite map_map.
Qed.

(** No view is lost or invented by the aggregation: the totals of the
    aggregated pages add up to the counts of all the entries of all the
    records. *)
Theorem aggregation_preserves_total_views :
  forall records : list PageRecord,
    fold_right Z.add 0 (map viewCountTotal (page_info_list records)) =
    fold_right Z.add 0 (map (fun r => sum_counts (stats_of r)) records).
Proof.
  intros records. rewrite page_info_list_aggregate. unfold aggregate.
  induction records as [|r records IH]; [reflexivity|].
  cbn [filter map fold_right]. destruct (has_view_stats r) eqn:E.
  - cbn [map fold_right viewCountTotal]. now rewrite IH.
  - rewrite IH. unfold has_view_stats in E. unfold stats_of.
    destruct (viewStats r) as [[|v vs]|]; try discriminate; reflexivity.
Qed.

(** With a requested number of items that is not positive, or when no
    record has view statistics, the report is the title and the heading
    of the table, without any row. *)
Theorem report_without_rows :
  forall (return_summary : string -> string) (str_now md_path : string)
         (records : list PageRecord) (number_of_items : Z),
    number_of_items <= 0 \/ forallb (fun r => negb (has_view_stats r)) records = true ->
    create_most_visited_md return_summary str_now md_path records number_of_items =
    title str_now number_of_items ++ table_head.
Proof.
  intros rs now path records n H. unfold create_most_visited_md.
  rewrite render_spec. destruct H as [Hn|Hr].
  - replace (Z.to_nat n) with O by lia. cbn [firstn map cat fold_right].
    apply append_nil_r.
  - rewrite page_info_list_aggregate. unfold aggregate.
    assert (E : filter has_view_stats records = []).
    { induction records as [|r records IH]; [reflexivity|].
      cbn [forallb] in Hr. apply andb_prop in Hr as [Hr1 Hr2].
      cbn [filter]. apply negb_true_iff in Hr1. rewrite Hr1. now apply IH. }
    rewrite E. cbn [map list_sort rev stable_sort fold_right app].
    rewrite firstn_nil. cbn [map cat fold_right]. apply append_nil_r.
Qed.

Lemma report_without_rows_witness :
  create_most_visited_md (fun p => p) "Mon Jan  1 00:00:00 2024" "/repo/wiki/Most.md"
    [mkPageRecord 1 "/Setup Guide" (Some [mkViewStat 3 "d1"])] 0 =
  title "Mon Jan  1 00:00:00 2024" 0 ++ table_head.
Proof.
  apply (report_without_rows (fun p => p) "Mon Jan  1 00:00:00 2024" "/repo/wiki/Most.md"
           [mkPageRecord 1 "/Setup Guide" (Some [mkViewStat 3 "d1"])] 0).
  left. lia.
Defined.

(** The link target of a row never contains a space, a bar, a star or a
    colon, and its link text never contains a bar. *)
Theorem link_has_no_table_breaking_characters :
  forall p : string,
    has_char " " (link_path p) = false /\ has_char "|" (link_path p) = false /\
    has_char "*" (link_path p) = false /\ has_char ":" (link_path p) = false /\
    has_char "|" (link_name p) = false.
Proof.
  intros p. rewrite link_path_spec. unfold escape, link_name.
  repeat split; repeat (rewrite has_char_replace by reflexivity; cbn [Ascii.eqb Bool.eqb andb]);
    reflexivity.
Qed.

Lemma has_char_false_empty_segment (s : string) :
  has_char "/" s = false -> sub_last_segment s = EmptyString.
Proof.
  destruct s as [|c t]; [reflexivity|]. intros H. cbn [sub_last_segment].
  now rewrite contains_single, H.
Qed.

(** [re.sub(r'[^/]+$', '', path)] cuts the path after its last slash: what
    is removed has no slash, and what is left is empty or ends with one. *)
Theorem sub_last_segment_cuts_after_last_slash :
  forall s : string,
    (exists segment, s = sub_last_segment s ++ segment /\ has_char "/" segment = false) /\
    (sub_last_segment s = EmptyString \/ exists d, sub_last_segment s = d ++ "/") /\
    (sub_last_segment s = EmptyString <-> has_char "/" s = false).
Proof.
  induction s as [|c t (IH1 & IH2 & IH3)].
  - repeat split; auto. exists EmptyString. split; reflexivity.
  - cbn [sub_last_segment]. rewrite contains_single.
    destruct (has_char "/" (String c t)) eqn:E.
    + split; [|split].
      * destruct IH1 as (seg & Hs & Hn). exists seg. split; [|exact Hn].
        cbn [append]. now rewrite <- Hs.
      * right. destruct IH2 as [He|(d & Hd)].
        -- apply IH3 in He. cbn [has_char] in E. rewrite He, orb_false_r in E.
           apply Ascii.eqb_eq in E. subst c. exists EmptyString.
           apply IH3 in He. now rewrite He.
        -- exists (String c d). now rewrite Hd.
      * split; discriminate.
    + split; [|split].
      * exists (String c t). split; [reflexivity|exact E].
      * now left.
      * split; reflexivity.
Qed.

(** ** The article table, further *)

Section MineMore.
Variable new_articles_md_full_path : string.

(** One line either changes neither the list nor the counter, or is
    eligible and adds its link target and one to the counter, stopping the
    loop exactly when the counter reaches the maximum. *)
Lemma mine_line_step (m : Miner) (commit : string) :
  let m' := fst (mine_line new_articles_md_full_path m commit) in
  let stop := snd (mine_line new_articles_md_full_path m commit) in
  (articles m' = articles m /\ current_number_of_items m' = current_number_of_items m /\
   stop = false) \/
  (eligible new_articles_md_full_path commit = true /\
   articles m' = (articles m ++ [link_of_line commit])%list /\
   current_number_of_items m' = current_number_of_items m + 1 /\
   stop = (current_number_of_items m + 1 =? max_number_of_items_in_md_for_last_updated_pages)).
Proof.
  unfold mine_line, eligible.
  destruct (startswith commit "#ItemAuthor#"); [left; repeat split|].
  destruct (startswith commit "#ItemDate#"); [left; repeat split|].
  fold (link_of_line commit). cbn [negb andb].
  destruct (negb (String.eqb (replace commit nl EmptyString) EmptyString));
    [|left; repeat split].
  cbn [andb].
  destruct (find (resulting_md m) ("[" ++ link_of_line commit ++ "]") <? 0);
    [|left; repeat split].
  cbn [andb].
  destruct (find (replace commit nl EmptyString) new_articles_md_full_path <? 0);
    [|left; repeat split].
  destruct (list_contains (articles m) (link_of_line commit)); [left; repeat split|].
  right. repeat split.
Qed.

Lemma mine_loop_counts (commits : list string) :
  forall m,
    current_number_of_items m = Z.of_nat (List.length (articles m)) ->
    current_number_of_items m < max_number_of_items_in_md_for_last_updated_pages ->
    let m' := mine_loop new_articles_md_full_path m commits in
    current_number_of_items m' = Z.of_nat (List.length (articles m')) /\
    current_number_of_items m' <= max_number_of_items_in_md_for_last_updated_pages.
Proof.
  induction commits as [|commit rest IH]; intros m Hc Hlt; cbn [mine_loop].
  - split; [exact Hc|lia].
  - pose proof (mine_line_step m commit) as Hs.
    destruct (mine_line new_articles_md_full_path m commit) as [m1 stop].
    cbn [fst snd] in Hs.
    destruct Hs as [(Ea & En & ->)|(_ & Ea & En & ->)].
    + apply IH; [now rewrite En, Ea|lia].
    + assert (Hc1 : current_number_of_items m1 = Z.of_nat (List.length (articles m1))).
      { rewrite En, Ea, length_app. cbn [List.length]. lia. }
      destruct (Z.eqb_spec (current_number_of_items m + 1)
                  max_number_of_items_in_md_for_last_updated_pages) as [E|E].
      * split; [exact Hc1|lia].
      * apply IH; [exact Hc1|lia].
Qed.

Lemma mine_loop_eligible (commits : list string) :
  forall m,
    Forall (fun link => exists commit, In commit commits /\
              eligible new_articles_md_full_path commit = true /\
              link = link_of_line commit)
           (skipn (List.length (articles m))
                  (articles (mine_loop new_articles_md_full_path m commits))) /\
    firstn (List.length (articles m))
           (articles (mine_loop new_articles_md_full_path m commits)) = articles m.
Proof.
  induction commits as [|commit rest IH]; intros m; cbn [mine_loop].
  - rewrite skipn_all, firstn_all. split; constructor.
  - pose proof (mine_line_step m commit) as Hs.
    destruct (mine_line new_articles_md_full_path m commit) as [m1 stop].
    cbn [fst snd] in Hs.
    assert (Hweak : forall (l : list string),
              Forall (fun link => exists c, In c rest /\
                        eligible new_articles_md_full_path c = true /\
                        link = link_of_line c) l ->
              Forall (fun link => exists c, In c (commit :: rest) /\
                        eligible new_articles_md_full_path c = true /\
                        link = link_of_line c) l).
    { intros l. apply Forall_impl. intros a (c & Hin & He & Hl).
      exists c. split; [now right|now split]. }
    destruct Hs as [(Ea & _ & ->)|(He & Ea & _ & _)].
    + destruct (IH m1) as [IH1 IH2]. rewrite Ea in IH1, IH2.
      split; [now apply Hweak|exact IH2].
    + assert (Hthis : Forall (fun link => exists c, In c (commit :: rest) /\
                        eligible new_articles_md_full_path c = true /\
                        link = link_of_line c) [link_of_line commit]).
      { constructor; [|constructor]. exists commit. split; [now left|now split]. }
      destruct stop.
      * rewrite Ea, skipn_app, firstn_app, skipn_all, firstn_all, Nat.sub_diag.
        cbn [skipn firstn app]. rewrite app_nil_r. split; [exact Hthis|reflexivity].
      * destruct (IH m1) as [IH1 IH2]. rewrite Ea in IH1, IH2.
        rewrite length_app in IH1, IH2. cbn [List.length] in IH1, IH2.
        set (final := articles (mine_loop new_articles_md_full_path m1 rest)) in *.
        assert (Hfin : final = (articles m ++ [link_of_line commit]
                                ++ skipn (List.length (articles m) + 1) final)%list).
        { rewrite <- (firstn_skipn (List.length (articles m) + 1) final) at 1.
          rewrite IH2, <- app_assoc. reflexivity. }
        split.
        -- rewrite Hfin, skipn_app, skipn_all, Nat.sub_diag. cbn [skipn app].
           constructor; [now inversion Hthis|now apply Hweak].
        -- rewrite Hfin, firstn_app, firstn_all, Nat.sub_diag. cbn [firstn].
           apply app_nil_r.
Qed.
End MineMore.

(** The article table never has more than 2000 rows, and the counter of
    the loop is the number of link targets listed. *)
Theorem article_table_has_at_most_2000_rows :
  forall (new_articles_md_full_path : string) (number_of_days : Z) (str_now log : string),
    let m := mine new_articles_md_full_path number_of_days str_now log in
    current_number_of_items m = Z.of_nat (List.length (articles m)) /\
    (List.length (articles m) <= 2000)%nat.
Proof.
  intros path n now log m.
  destruct (mine_loop_counts path (file_lines log) (mine_start n now)) as [Hc Hle];
    [reflexivity|reflexivity|].
  fold (mine path n now log) in Hc, Hle. fold m in Hc, Hle.
  split; [exact Hc|]. unfold max_number_of_items_in_md_for_last_updated_pages in Hle. lia.
Qed.

(** Every link target of the article table comes from a line of the log
    that is neither an author nor a date line, is not empty and does not
    contain the path of the report itself. *)
Theorem article_rows_come_from_eligible_lines :
  forall (new_articles_md_full_path : string) (number_of_days : Z) (str_now log : string),
    Forall (fun link => exists commit,
              In commit (file_lines log) /\
              eligible new_articles_md_full_path commit = true /\
              link = link_of_line commit)
           (articles (mine new_articles_md_full_path number_of_days str_now log)).
Proof.
  intros path n now log.
  destruct (mine_loop_eligible path (file_lines log) (mine_start n now)) as [H _].
  exact H.
Qed.

Lemma hd_error_filter_none {A : Type} (f : A -> bool) (l : list A) :
  hd_error (filter f l) = None <-> existsb f l = false.
Proof.
  induction l as [|x l IH]; cbn [filter existsb hd_error]; [tauto|].
  destruct (f x); cbn [hd_error orb]; [split; discriminate|exact IH].
Qed.

Lemma hd_error_filter_some {A : Type} (f : A -> bool) (l : list A) (a : A) :
  hd_error (filter f l) = Some a -> existsb f l = true.
Proof.
  intros H. destruct (existsb f l) eqn:E; [reflexivity|].
  apply hd_error_filter_none in E. congruence.
Qed.

Lemma earliest_step_none (d : Dict) (log : string) :
  earliest_step (Some d) log = None <-> chunk_complete log = false.
Proof.
  unfold earliest_step, chunk_complete.
  destruct (String.eqb log EmptyString); cbn [orb]; [split; discriminate|].
  set (lines := split log nl).
  destruct (hd_error (filter (fun line => startswith line "#ItemAuthor#") lines)) as [a|] eqn:Ea.
  - rewrite (hd_error_filter_some _ _ _ Ea). cbn [andb].
    destruct (hd_error (filter (fun line => startswith line "#ItemDate#") lines)) as [b|] eqn:Eb.
    + rewrite (hd_error_filter_some _ _ _ Eb).
      destruct (dict_get d (last lines EmptyString)); [|split; discriminate].
      destruct (String.ltb _ _); split; discriminate.
    + apply hd_error_filter_none in Eb. rewrite Eb. split; reflexivity.
  - apply hd_error_filter_none in Ea. rewrite Ea. split; reflexivity.
Qed.

Lemma earliest_fold_none (logs : list string) :
  fold_left earliest_step logs None = None.
Proof. induction logs; cbn; auto. Qed.

Lemma earliest_fold (logs : list string) :
  forall d, fold_left earliest_step logs (Some d) = None <->
            forallb chunk_complete logs = false.
Proof.
  induction logs as [|log logs IH]; intros d; cbn [fold_left forallb].
  - split; discriminate.
  - destruct (earliest_step (Some d) log) as [d'|] eqn:E.
    + assert (Hc : chunk_complete log = true).
      { destruct (chunk_complete log) eqn:Ec; [reflexivity|].
        apply (proj2 (earliest_step_none d log)) in Ec. congruence. }
      rewrite Hc. cbn [andb]. apply IH.
    + apply (proj1 (earliest_step_none d log)) in E.
      rewrite E, earliest_fold_none. split; reflexivity.
Qed.

(** The function fails with [IndexError], and writes no report, exactly
    when the log, cut at blank lines, has a commit log that is not empty
    and lacks an author line or a date line. *)
Theorem articles_report_fails_on_incomplete_commit_log :
  forall (new_articles_md_full_path : string) (number_of_days : Z) (str_now log : string),
    create_new_articles_md new_articles_md_full_path number_of_days str_now log = None <->
    forallb chunk_complete (split (strip log) (nl ++ nl)) = false.
Proof.
  intros path n now log. unfold create_new_articles_md.
  pose proof (earliest_fold (split (strip log) (nl ++ nl)) []) as H.
  change (fold_left earliest_step (split (strip log) (nl ++ nl)) (Some []))
    with (earliest_dates log) in H.
  destruct (earliest_dates log).
  - rewrite <- H. split; discriminate.
  - split; [intros _; now apply H|reflexivity].
Qed.

(** ** Link text of the article table *)

Lemma replace_char_back (c d : ascii) (s : string) :
  has_char d s = false ->
  replace (replace s (String c EmptyString) (String d EmptyString))
          (String d EmptyString) (String c EmptyString) = s.
Proof.
  induction s as [|e t IH]; intros H; [reflexivity|].
  cbn [has_char] in H. apply orb_false_elim in H as [Hde Ht].
  rewrite replace_single_cons. destruct (Ascii.eqb_spec c e) as [<-|Hce].
  - cbn [append]. rewrite replace_single_cons, Ascii.eqb_refl. cbn [append].
    now rewrite IH.
  - rewrite replace_single_cons. rewrite Hde. now rewrite IH.
Qed.

Lemma absent_first_char (a : ascii) (old s : string) :
  has_char a s = false -> contains s (String a old) = false.
Proof.
  unfold contains. induction s as [|e t IH]; intros H.
  - reflexivity.
  - cbn [has_char] in H. apply orb_false_elim in H as [Hae Ht].
    cbn [find_nat String.prefix]. destruct (ascii_dec a e) as [->|_].
    + now rewrite Ascii.eqb_refl in Hae.
    + specialize (IH Ht). now destruct (find_nat (String a old) t).
Qed.

(** For a file name without a dash and without a percent sign, the link
    text computed at line 318 is the file name itself: turning the spaces
    into dashes for the link path and the dashes back into spaces gives
    the name again, and no percent escape is decoded.  The line appended
    for the file at lines 325-328 therefore shows the file name between
    the brackets and its dashed form between the parentheses.  (Line 335
    later replaces doubled bars in the whole report.) *)
Theorem link_text_is_the_file_name :
  forall name : string,
    has_char "-" name = false -> has_char "%" name = false ->
    replace (replace (replace (replace name " " "-") "-" " ") "%2D" "-") "%3A" ":" = name /\
    forall author date : string,
      article_row (replace name " " "-") author date =
      "| [" ++ name ++ "](" ++ replace name " " "-" ++ ") |" ++ author ++ "|" ++ date ++ nl.
Proof.
  intros name Hdash Hpct.
  assert (E : for_link (replace name " " "-") = name).
  { unfold for_link.
    rewrite (replace_char_back " " "-" name Hdash).
    rewrite (replace_absent name "%2D" "-") by (discriminate || now apply absent_first_char).
    apply replace_absent; [discriminate|now apply absent_first_char]. }
  split; [exact E|].
  intros author date. unfold article_row. now rewrite E.
Qed.

Lemma link_text_is_the_file_name_witness :
  replace (replace (replace (replace "Foo Bar.md" " " "-") "-" " ") "%2D" "-") "%3A" ":"
    = "Foo Bar.md" /\
  forall author date : string,
    article_row (replace "Foo Bar.md" " " "-") author date =
    "| [" ++ "Foo Bar.md" ++ "](" ++ replace "Foo Bar.md" " " "-" ++ ") |" ++ author ++ "|" ++
    date ++ nl.
Proof.
  apply (link_text_is_the_file_name "Foo Bar.md"); reflexivity.
Defined.

(** ** File names *)

Lemma startswith_append_slash (a b : string) :
  startswith a "/" = false -> startswith b "/" = false -> startswith (a ++ b) "/" = false.
Proof.
  destruct a as [|c a]; [intros _ H; exact H|]. intros H _. unfold startswith in *.
  cbn [append String.prefix] in *. destruct (ascii_dec "/" c); [|reflexivity].
  now rewrite prefix_empty in H.
Qed.

Lemma endswith_append (a b : string) :
  b <> EmptyString -> endswith (a ++ b) "/" = endswith b "/".
Proof.
  intros Hb. unfold endswith. rewrite length_append. cbn [String.length].
  assert (Hl : (1 <= String.length b)%nat) by (destruct b; [congruence|cbn; lia]).
  replace (String.length a + String.length b - 1)%nat
    with (String.length a + (String.length b - 1))%nat by lia.
  rewrite drop_append_plus.
  destruct (Nat.leb_spec 1 (String.length a + String.length b)); [|lia].
  destruct (Nat.leb_spec 1 (String.length b)); [|lia]. reflexivity.
Qed.

Lemma append_not_empty (a b : string) : b <> EmptyString -> a ++ b <> EmptyString.
Proof.
  intros Hb H. apply (f_equal String.length) in H. rewrite length_append in H.
  destruct b; [congruence|]. cbn in H. lia.
Qed.

(** A relative component is put after one slash when the path so far is
    not empty and does not end with a slash. *)
Lemma path_join_step_slash (path b : string) :
  path <> EmptyString -> endswith path "/" = false -> startswith b "/" = false ->
  path_join_step path b = path ++ "/" ++ b.
Proof.
  intros Hp He Hb. unfold path_join_step. rewrite Hb, He.
  apply String.eqb_neq in Hp. now rewrite Hp.
Qed.

(** For a wiki name that is not empty and neither starts nor ends with a
    slash, the paths returned are the working directory, the wiki name
    and the file names put together with single slashes; the two files
    of the new-articles report are given exactly when the flag is ["1"]. *)
Theorem file_paths_are_built_from_the_wiki_name :
  forall (local_base_folder code_wiki_name : string) (items days : Z) (flag : string),
    code_wiki_name <> EmptyString ->
    startswith code_wiki_name "/" = false -> endswith code_wiki_name "/" = false ->
    let repo := local_base_folder ++ "/" ++ code_wiki_name in
    create_files_definitions local_base_folder code_wiki_name items days flag =
    mkFilesDefinitions
      repo
      (repo ++ "/" ++ code_wiki_name ++ "-most-visited.json")
      (repo ++ "/" ++ code_wiki_name ++ "/" ++
       "Most-visited-" ++ str_of_int items ++ "-pages-in-last-30-days.md")
      (if String.eqb flag "1"
       then Some (repo ++ "/" ++ code_wiki_name ++ "-new-articles.txt") else None)
      (if String.eqb flag "1"
       then Some (repo ++ "/" ++ code_wiki_name ++ "/" ++
                  "Articles-created-in-the-past-" ++ str_of_int days ++ "-days.md")
       else None).
Proof.
  intros base wiki items days flag Hne Hs He repo.
  assert (Hrepo : repo <> EmptyString).
  { subst repo. apply append_not_empty. discriminate. }
  assert (Erepo : endswith repo "/" = false).
  { subst repo. rewrite endswith_append by (cbn [append]; discriminate).
    change ("/" ++ wiki) with (String "/" EmptyString ++ wiki).
    now rewrite endswith_append. }
  assert (J1 : forall suffix, startswith suffix "/" = false ->
                 os_path_join repo [wiki ++ suffix] = repo ++ "/" ++ wiki ++ suffix).
  { intros suffix Hsuf. unfold os_path_join. cbn [fold_left].
    apply path_join_step_slash; auto. now apply startswith_append_slash. }
  assert (J2 : forall name, startswith name "/" = false ->
                 os_path_join repo [wiki; name] = repo ++ "/" ++ wiki ++ "/" ++ name).
  { intros name Hn. unfold os_path_join. cbn [fold_left].
    rewrite (path_join_step_slash repo wiki Hrepo Erepo Hs).
    rewrite path_join_step_slash; auto.
    - now rewrite !append_assoc.
    - apply append_not_empty. discriminate.
    - rewrite endswith_append by (cbn [append]; discriminate).
      change ("/" ++ wiki) with (String "/" EmptyString ++ wiki).
      now rewrite endswith_append. }
  unfold create_files_definitions. fold repo.
  rewrite !J1, !J2 by reflexivity.
  destruct (String.eqb flag "1"); reflexivity.
Qed.

Lemma file_paths_are_built_from_the_wiki_name_witness :
  create_files_definitions "/home/u" "MyWiki" 10 30 "1" =
  mkFilesDefinitions
    "/home/u/MyWiki"
    "/home/u/MyWiki/MyWiki-most-visited.json"
    "/home/u/MyWiki/MyWiki/Most-visited-10-pages-in-last-30-days.md"
    (Some "/home/u/MyWiki/MyWiki-new-articles.txt")
    (Some "/home/u/MyWiki/MyWiki/Articles-created-in-the-past-30-days.md").
Proof.
  apply (file_paths_are_built_from_the_wiki_name "/home/u" "MyWiki" 10 30 "1");
    [discriminate|reflexivity|reflexivity].
Defined.

(** A wiki name that starts with a slash takes the cached JSON file out
    of the repository folder: [os.path.join] drops what precedes an
    absolute component. *)
Theorem absolute_wiki_name_leaves_the_repository :
  forall (local_base_folder code_wiki_name : string) (items days : Z) (flag : string),
    startswith code_wiki_name "/" = true ->
    fd_most_visited_json
      (create_files_definitions local_base_folder code_wiki_name items days flag) =
    code_wiki_name ++ "-most-visited.json".
Proof.
  intros base wiki items days flag Hw.
  assert (E : os_path_join (base ++ "/" ++ wiki) [wiki ++ "-most-visited.json"] =
              wiki ++ "-most-visited.json").
  { unfold os_path_join, path_join_step. cbn [fold_left].
    destruct wiki as [|c wiki]; [discriminate|].
    unfold startswith in *. cbn [append String.prefix] in *.
    destruct (ascii_dec "/" c); [|discriminate]. now rewrite prefix_empty. }
  unfold create_files_definitions. destruct (String.eqb flag "1"); exact E.
Qed.

Lemma absolute_wiki_name_leaves_the_repository_witness :
  fd_most_visited_json (create_files_definitions "/home/u" "/tmp/w" 10 30 "0") =
  "/tmp/w" ++ "-most-visited.json".
Proof.
  apply (absolute_wiki_name_leaves_the_repository "/home/u" "/tmp/w" 10 30 "0"). reflexivity.
Defined.

(** ** The push command *)

Lemma hex_digit_unreserved (n : nat) : is_unreserved (hex_digit n) = true.
Proof.
  do 16 (destruct n as [|n]; [reflexivity|]). reflexivity.
Qed.

Lemma has_char_percent_byte (c : ascii) (b : nat) :
  has_char c (percent_byte b) = true -> is_unreserved c = true \/ c = "%"%char.
Proof.
  unfold percent_byte. cbn [has_char]. rewrite orb_false_r. intros H.
  apply orb_prop in H as [H|H]; [right; now apply Ascii.eqb_eq|].
  left. apply orb_prop in H as [H|H]; apply Ascii.eqb_eq in H; subst c;
    apply hex_digit_unreserved.
Qed.

Lemma has_char_quote_char (c d : ascii) :
  has_char c (quote_char d) = true -> is_unreserved c = true \/ c = "%"%char.
Proof.
  unfold quote_char. destruct (is_unreserved d) eqn:E.
  - cbn [has_char]. rewrite orb_false_r. intros H. apply Ascii.eqb_eq in H. subst c.
    now left.
  - generalize (utf8_bytes d). intros bytes.
    induction bytes as [|b bytes IH]; cbn [map fold_right]; [discriminate|].
    rewrite has_char_append. intros H. apply orb_prop in H as [H|H].
    + eapply has_char_percent_byte; eassumption.
    + now apply IH.
Qed.

(** The encoded user name holds nothing but letters, digits, the four
    marks [_.-~] and percent signs; in particular no [@], [:] or [/] of
    the user name reaches the URL. *)
Theorem quote_leaves_only_safe_characters :
  forall (s : string) (c : ascii),
    has_char c (quote s) = true -> is_unreserved c = true \/ c = "%"%char.
Proof.
  induction s as [|d t IH]; intros c H; [discriminate|].
  cbn [quote] in H. rewrite has_char_append in H. apply orb_prop in H as [H|H].
  - eapply has_char_quote_char; eassumption.
  - now apply IH.
Qed.

Lemma quote_leaves_only_safe_characters_witness :
  is_unreserved "4" = true \/ "4"%char = "%"%char.
Proof.
  apply (quote_leaves_only_safe_characters "john@contoso.com" "4"). reflexivity.
Defined.

(** A user name made of letters, digits and the marks [_.-~] is not
    changed by the encoding. *)
Theorem quote_keeps_unreserved_text :
  forall s : string, all_chars is_unreserved s = true -> quote s = s.
Proof.
  induction s as [|c t IH]; intros H; [reflexivity|].
  cbn [all_chars] in H. apply andb_prop in H as [Hc Ht].
  cbn [quote]. unfold quote_char. rewrite Hc. cbn [append]. now rewrite IH.
Qed.

Lemma quote_keeps_unreserved_text_witness : quote "john.doe" = "john.doe".
Proof.
  apply (quote_keeps_unreserved_text "john.doe"). reflexivity.
Defined.

Lemma split_absent (s sep : string) :
  sep <> EmptyString -> contains s sep = false -> split s sep = [s].
Proof.
  intros Hne. unfold split, contains. induction s as [|c t IH]; intros H.
  - reflexivity.
  - cbn [find_nat] in H. cbn [split_go].
    destruct (String.prefix sep (String c t)); [discriminate|].
    destruct (find_nat sep t); [discriminate|]. now rewrite IH.
Qed.

Lemma split_at_host (pre post : string) :
  has_char "@" pre = false -> has_char "@" post = false ->
  split (pre ++ "@dev.azure.com" ++ post) "@dev.azure.com" = [pre; post].
Proof.
  intros Hpre Hpost. unfold split. induction pre as [|c pre IH].
  - cbn [append split_go String.prefix String.length Nat.pred].
    repeat (match goal with
            | |- context [ascii_dec ?a ?a] => destruct (ascii_dec a a); [|congruence]
            end).
    rewrite prefix_empty. f_equal.
    apply split_absent; [discriminate|now apply absent_first_char].
  - cbn [has_char] in Hpre. apply orb_false_elim in Hpre as [Hc Hpre].
    specialize (IH Hpre). revert IH.
    generalize ("@dev.azure.com" ++ post). intros tail IH.
    cbn [append split_go String.prefix].
    destruct (ascii_dec "@" c) as [<-|_]; [discriminate Hc|].
    now rewrite IH.
Qed.

(** For a repository URL with the host [@dev.azure.com] once, and no other
    [@] before or after it, the command pushes to that URL with what
    precedes the host replaced by the encoded user name, a colon and the
    token as given. *)
Theorem push_url_replaces_the_user_part :
  forall (ado_username pat pre post : string),
    has_char "@" pre = false -> has_char "@" post = false ->
    push_to_remote_repo ado_username pat (pre ++ "@dev.azure.com" ++ post) =
    "git push https://" ++ quote ado_username ++ ":" ++ pat ++ "@dev.azure.com" ++ post.
Proof.
  intros user pat pre post Hpre Hpost. unfold push_to_remote_repo.
  rewrite (split_at_host pre post Hpre Hpost). reflexivity.
Qed.

Lemma push_url_replaces_the_user_part_witness :
  push_to_remote_repo "john@c.com" "PAT" ("https://proj" ++ "@dev.azure.com" ++ "/proj/w/_git/W") =
  "git push https://" ++ quote "john@c.com" ++ ":" ++ "PAT" ++ "@dev.azure.com" ++ "/proj/w/_git/W".
Proof.
  apply (push_url_replaces_the_user_part "john@c.com" "PAT" "https://proj" "/proj/w/_git/W");
    reflexivity.
Defined.

(** For a URL that does not contain [@dev.azure.com], the whole URL is put
    after the host. *)
Theorem push_url_without_host_is_appended :
  forall (ado_username pat remote_url : string),
    contains remote_url "@dev.azure.com" = false ->
    push_to_remote_repo ado_username pat remote_url =
    "git push https://" ++ quote ado_username ++ ":" ++ pat ++ "@dev.azure.com" ++ remote_url.
Proof.
  intros user pat url H. unfold push_to_remote_repo.
  rewrite (split_absent url "@dev.azure.com") by (discriminate || exact H). reflexivity.
Qed.

Lemma push_url_without_host_is_appended_witness :
  push_to_remote_repo "john" "PAT" "https://example.org/x" =
  "git push https://" ++ quote "john" ++ ":" ++ "PAT" ++ "@dev.azure.com" ++ "https://example.org/x".
Proof.
  apply (push_url_without_host_is_appended "john" "PAT" "https://example.org/x"). reflexivity.
Defined.

(** ** The git user name *)

Lemma span_not_at_run (l rest : string) :
  has_char "@" l = false ->
  span_not_at (l ++ "@" ++ rest) = (l, "@" ++ rest).
Proof.
  induction l as [|c l IH]; intros H; [reflexivity|].
  cbn [has_char] in H. apply orb_false_elim in H as [Hc Hl].
  cbn [append span_not_at] in *. rewrite Ascii.eqb_sym in Hc. rewrite Hc.
  now rewrite (IH Hl).
Qed.

Lemma span_not_at_all (s : string) :
  has_char "@" s = false -> span_not_at s = (s, EmptyString).
Proof.
  induction s as [|c t IH]; intros H; [reflexivity|].
  cbn [has_char] in H. apply orb_false_elim in H as [Hc Ht].
  cbn [span_not_at]. rewrite Ascii.eqb_sym in Hc. rewrite Hc. now rewrite (IH Ht).
Qed.

(** For an address whose part before the first [@] is not empty, the git
    user name is that part followed by [via Wiki Automation]. *)
Theorem git_user_name_is_the_local_part :
  forall (local_part rest : string),
    local_part <> EmptyString -> has_char "@" local_part = false ->
    extract_username (local_part ++ "@" ++ rest) = Some local_part /\
    nth 2 (configure_git_user (local_part ++ "@" ++ rest)) EmptyString =
      "git config user.name " ++ dq ++ local_part ++ " via Wiki Automation" ++ dq.
Proof.
  intros l rest Hne H.
  assert (E : extract_username (l ++ "@" ++ rest) = Some l).
  { destruct l as [|c l]; [congruence|].
    pose proof (span_not_at_run (String c l) rest H) as Hs.
    cbn [has_char] in H. apply orb_false_elim in H as [Hc _].
    rewrite Ascii.eqb_sym in Hc.
    change (String c l ++ "@" ++ rest) with (String c (l ++ "@" ++ rest)) in *.
    cbn [extract_username]. rewrite Hc, Hs. reflexivity. }
  split; [exact E|]. unfold configure_git_user. rewrite E. reflexivity.
Qed.

Lemma git_user_name_is_the_local_part_witness :
  extract_username ("john" ++ "@" ++ "contoso.com") = Some "john" /\
  nth 2 (configure_git_user ("john" ++ "@" ++ "contoso.com")) EmptyString =
    "git config user.name " ++ dq ++ "john" ++ " via Wiki Automation" ++ dq.
Proof.
  apply (git_user_name_is_the_local_part "john" "contoso.com"); [discriminate|reflexivity].
Defined.

(** For a user name without any [@], the search finds nothing and the git
    user name is set to [None via Wiki Automation]. *)
Theorem git_user_name_without_at_is_None :
  forall ado_username : string,
    has_char "@" ado_username = false ->
    extract_username ado_username = None /\
    nth 2 (configure_git_user ado_username) EmptyString =
      "git config user.name " ++ dq ++ "None via Wiki Automation" ++ dq.
Proof.
  intros u H.
  assert (E : extract_username u = None).
  { destruct u as [|c t]; [reflexivity|].
    pose proof (span_not_at_all (String c t) H) as Hs.
    cbn [has_char] in H. apply orb_false_elim in H as [Hc _].
    rewrite Ascii.eqb_sym in Hc. cbn [extract_username]. rewrite Hc, Hs. reflexivity. }
  split; [exact E|]. unfold configure_git_user. rewrite E. reflexivity.
Qed.

Lemma git_user_name_without_at_is_None_witness :
  extract_username "john" = None /\
  nth 2 (configure_git_user "john") EmptyString =
    "git config user.name " ++ dq ++ "None via Wiki Automation" ++ dq.
Proof.
  apply (git_user_name_without_at_is_None "john"). reflexivity.
Defined.

(** ** The summarizer prompt *)

Lemma prefix_of_take (n : nat) (s : string) : String.prefix (take n s) s = true.
Proof.
  rewrite <- (take_drop n s) at 2. apply prefix_append.
Qed.

Lemma prefix_refl (s : string) : String.prefix s s = true.
Proof.
  rewrite <- (append_nil_r s) at 2. apply prefix_append.
Qed.

Lemma summary_prompt_parts (data : string) :
  summary_prompt data =
  prompt_before_article ++ truncate_article data ++ prompt_after_article.
Proof.
  unfold summary_prompt, create_prompt, prompt_before_article, prompt_after_article.
  cbn [fold_left]. unfold add_message. cbn [sender message_text].
  rewrite !append_assoc. reflexivity.
Qed.

(** The article handed to the model is the beginning of the file, at most
    8193 characters of it, and the whole file when it is not longer; the
    prompt is never more than 8193 characters longer than the prompt of an
    empty article. *)
Theorem article_is_cut_to_8193_characters :
  forall data : string,
    len (truncate_article data) = Z.min (len data) 8193 /\
    String.prefix (truncate_article data) data = true /\
    len (summary_prompt data) <= len (summary_prompt EmptyString) + 8193.
Proof.
  intros data.
  assert (H1 : len (truncate_article data) = Z.min (len data) 8193).
  { unfold truncate_article, max_length, slice_to.
    destruct (Z.gtb_spec (len data) 8193) as [Hgt|Hle]; [|lia].
    rewrite adjust_in_range by lia. unfold len in *. rewrite length_take. lia. }
  split; [exact H1|]. split.
  - unfold truncate_article, slice_to. destruct (len data >? max_length).
    + apply prefix_of_take.
    + apply prefix_refl.
  - rewrite !summary_prompt_parts. unfold len in *. rewrite !length_append.
    change (String.length (truncate_article EmptyString)) with O. lia.
Qed.

(** ** The index of earliest dates *)

Lemma string_compare_refl (s : string) : String.compare s s = Eq.
Proof.
  induction s as [|c s IH]; [reflexivity|]. cbn [String.compare].
  unfold Ascii.compare. now rewrite N.compare_refl.
Qed.

Lemma string_compare_lt_trans (a : string) :
  forall b c, String.compare a b = Lt -> String.compare b c = Lt -> String.compare a c = Lt.
Proof.
  induction a as [|x a IH]; intros [|y b] [|z c] H1 H2; cbn [String.compare] in *;
    try discriminate; try reflexivity.
  destruct (Ascii.compare x y) eqn:Exy; try discriminate.
  - apply Ascii.compare_eq_iff in Exy. subst y.
    destruct (Ascii.compare x z); try discriminate; [now apply (IH b)|reflexivity].
  - destruct (Ascii.compare y z) eqn:Eyz; try discriminate.
    + apply Ascii.compare_eq_iff in Eyz. subst z. now rewrite Exy.
    + unfold Ascii.compare in *.
      apply N.compare_lt_iff in Exy. apply N.compare_lt_iff in Eyz.
      assert (E : (N_of_ascii x ?= N_of_ascii z)%N = Lt).
      { apply N.compare_lt_iff. eapply N.lt_trans; eassumption. }
      now rewrite E.
Qed.

Lemma ltb_irrefl (s : string) : String.ltb s s = false.
Proof. unfold String.ltb. now rewrite string_compare_refl. Qed.

Lemma ltb_trans (a b c : string) :
  String.ltb a b = true -> String.ltb b c = true -> String.ltb a c = true.
Proof.
  unfold String.ltb. intros H1 H2.
  destruct (String.compare a b) eqn:E1; try discriminate.
  destruct (String.compare b c) eqn:E2; try discriminate.
  now rewrite (string_compare_lt_trans a b c E1 E2).
Qed.

Lemma dict_get_set_same (d : Dict) (k v : string) : dict_get (dict_set d k v) k = Some v.
Proof.
  induction d as [|[k' v'] d IH]; cbn [dict_set dict_get].
  - now rewrite String.eqb_refl.
  - destruct (String.eqb k' k) eqn:E; cbn [dict_get]; rewrite ?String.eqb_refl, ?E; auto.
Qed.

Lemma dict_get_set_other (d : Dict) (k k' v : string) :
  k <> k' -> dict_get (dict_set d k v) k' = dict_get d k'.
Proof.
  intros Hne. induction d as [|[k0 v0] d IH]; cbn [dict_set dict_get].
  - apply String.eqb_neq in Hne. now rewrite Hne.
  - destruct (String.eqb_spec k0 k) as [->|Hk]; cbn [dict_get].
    + apply String.eqb_neq in Hne. now rewrite Hne.
    + destruct (String.eqb k0 k'); auto.
Qed.

Lemma earliest_step_entry (d : Dict) (log : string) :
  earliest_step (Some d) log =
  if String.eqb log EmptyString then Some d
  else match chunk_entry log with
       | None => None
       | Some (filename, date) =>
           match dict_get d filename with
           | None => Some (dict_set d filename date)
           | Some earliest_date =>
               if String.ltb date earliest_date then Some (dict_set d filename date)
               else Some d
           end
       end.
Proof.
  unfold earliest_step, chunk_entry.
  destruct (String.eqb log EmptyString); [reflexivity|].
  destruct (hd_error (filter _ (split log nl))); [|reflexivity].
  destruct (hd_error (filter _ (split log nl))); reflexivity.
Qed.

Lemma index_of_step (d : Dict) (seen : list (string * string)) (f date : string) :
  index_of d seen ->
  index_of (match dict_get d f with
            | None => dict_set d f date
            | Some earliest_date =>
                if String.ltb date earliest_date then dict_set d f date else d
            end) (seen ++ [(f, date)]).
Proof.
  intros [H1 H2].
  assert (Hin : forall g v, In (g, v) (seen ++ [(f, date)]) <->
                            In (g, v) seen \/ (g = f /\ v = date)).
  { intros g v. rewrite in_app_iff. cbn [In]. split; intros [H|H]; auto.
    - destruct H as [H|[]]. injection H as <- <-. now right.
    - destruct H as [-> ->]. right. now left. }
  destruct (dict_get d f) as [e|] eqn:Ef.
  - destruct (H1 f e Ef) as [He Hmin].
    destruct (String.ltb date e) eqn:Elt.
    + split.
      * intros g v Hg. destruct (String.eqb_spec f g) as [<-|Hfg].
        -- rewrite dict_get_set_same in Hg. injection Hg as <-.
           split; [apply Hin; now right|].
           intros v' Hv'. apply Hin in Hv' as [Hv'|[_ ->]]; [|apply ltb_irrefl].
           destruct (String.ltb v' date) eqn:E; [|reflexivity].
           pose proof (ltb_trans _ _ _ E Elt) as Ht. rewrite (Hmin v' Hv') in Ht.
           discriminate.
        -- rewrite dict_get_set_other in Hg by exact Hfg.
           destruct (H1 g v Hg) as [Hgv Hgm]. split; [apply Hin; now left|].
           intros v' Hv'. apply Hin in Hv' as [Hv'|[-> _]]; [now apply Hgm|congruence].
      * intros g v Hg. apply Hin in Hg as [Hg|[-> ->]].
        -- destruct (String.eqb_spec f g) as [<-|Hfg].
           ++ rewrite dict_get_set_same. eauto.
           ++ rewrite dict_get_set_other by exact Hfg. eapply H2; eassumption.
        -- rewrite dict_get_set_same. eauto.
    + split.
      * intros g v Hg. destruct (H1 g v Hg) as [Hgv Hgm]. split; [apply Hin; now left|].
        intros v' Hv'. apply Hin in Hv' as [Hv'|[-> ->]]; [now apply Hgm|].
        rewrite Ef in Hg. injection Hg as <-. exact Elt.
      * intros g v Hg. apply Hin in Hg as [Hg|[-> ->]]; [eapply H2; eassumption|eauto].
  - split.
    + intros g v Hg. destruct (String.eqb_spec f g) as [<-|Hfg].
      * rewrite dict_get_set_same in Hg. injection Hg as <-.
        split; [apply Hin; now right|].
        intros v' Hv'. apply Hin in Hv' as [Hv'|[_ ->]]; [|apply ltb_irrefl].
        destruct (H2 f v' Hv') as [w Hw]. congruence.
      * rewrite dict_get_set_other in Hg by exact Hfg.
        destruct (H1 g v Hg) as [Hgv Hgm]. split; [apply Hin; now left|].
        intros v' Hv'. apply Hin in Hv' as [Hv'|[-> _]]; [now apply Hgm|congruence].
    + intros g v Hg. apply Hin in Hg as [Hg|[-> ->]].
      * destruct (String.eqb_spec f g) as [<-|Hfg].
        -- rewrite dict_get_set_same. eauto.
        -- rewrite dict_get_set_other by exact Hfg. eapply H2; eassumption.
      * rewrite dict_get_set_same. eauto.
Qed.

Lemma earliest_fold_index (logs : list string) :
  forall d seen d',
    index_of d seen ->
    fold_left earliest_step logs (Some d) = Some d' ->
    index_of d' (seen ++ chunk_entries logs).
Proof.
  induction logs as [|log logs IH]; intros d seen d' Hi Hf; cbn [fold_left chunk_entries] in *.
  - injection Hf as <-. now rewrite app_nil_r.
  - rewrite earliest_step_entry in Hf.
    destruct (String.eqb log EmptyString) eqn:El.
    + assert (E : chunk_entry log = None) by (unfold chunk_entry; now rewrite El).
      rewrite E. eapply IH; eassumption.
    + destruct (chunk_entry log) as [[f date]|].
      * pose proof (index_of_step d seen f date Hi) as Hs.
        replace (seen ++ (f, date) :: chunk_entries logs)%list
          with ((seen ++ [(f, date)]) ++ chunk_entries logs)%list
          by (now rewrite <- app_assoc).
        destruct (dict_get d f) as [e|]; [destruct (String.ltb date e)|];
          eapply IH; eassumption.
      * rewrite earliest_fold_none in Hf. discriminate.
Qed.

(** When the first pass succeeds, its dictionary has a key for every file
    name read off a commit log, and the date kept for a key is the date of
    one of the commit logs of that file name, with no commit log of that
    file name having a smaller date string. *)
Theorem earliest_dates_holds_smallest_dates :
  forall (new_articles_commits : string) (d : Dict),
    earliest_dates new_articles_commits = Some d ->
    index_of d (chunk_entries (split (strip new_articles_commits) (nl ++ nl))).
Proof.
  intros text d H.
  apply (earliest_fold_index _ [] [] d); [|exact H].
  split; [discriminate|intros f v []].
Qed.

Lemma earliest_dates_holds_smallest_dates_witness :
  index_of [("Foo Bar.md", "01/02/24 10:00:00"); ("Foo-Bar.md", "01/01/24 09:00:00")]
           (chunk_entries (split (strip foo_log) (nl ++ nl))).
Proof.
  apply (earliest_dates_holds_smallest_dates foo_log). reflexivity.
Defined.
